(** * reximage: the REXPaint [.xp] codec, embedded in Rocq

    A shallow embedding of [reximage.go]: the cell and image model
    ([CellData], [ImageData], [Init], [GetCell], [SetCell]), the colour
    packing helpers, and the two codec entry points [Import] and [Export].

    Conventions of the embedding.
    - Go's [int] is the 64-bit two's-complement integer of the usual targets;
      arithmetic on it wraps ([int_wrap]).  [uint32], [uint8] and [int32]
      values are integers reduced into their range by the conversions
      [to_uint32], [to_uint8], [to_int32].
    - A function that can panic at run time (a negative [make], an index out
      of range, a division by zero) returns [option]; [None] is the panic.
      Allocation is given: [make] succeeds for every length that is not
      negative.  The limit that the runtime puts on the size of a slice and
      the exhaustion of memory are outside the model, so what is proved of
      the result of [Init] is proved for the calls of [Init] that return.
    - A Go result pair [(v, err)] is a pair whose second component is
      [option error]; [None] is Go's [nil] error.
    - [for i := range n] is the combinator [for_range]; its body says whether
      the loop goes on ([Next]) or the enclosing function returned ([Return]).
    - The operating system and [compress/gzip] are the environment: a file
      system is a finite map from paths to contents, and the gzip writer and
      reader are parameters of the section that defines [Import] and
      [Export]. *)

From Stdlib Require Import ZArith Lia Strings.Byte.
From stdpp Require Import base option list list_numbers strings gmap.

#[local] Open Scope Z_scope.

(** ** Fixed-width integers *)

Definition int_wrap (z : Z) : Z := (z + 2 ^ 63) mod 2 ^ 64 - 2 ^ 63.
Definition int_add (a b : Z) : Z := int_wrap (a + b).
Definition int_mul (a b : Z) : Z := int_wrap (a * b).

(** Go's [/] and [%] truncate towards zero and panic on a zero divisor. *)
Definition int_quot (a b : Z) : option Z :=
  if b =? 0 then None else Some (int_wrap (a ÷ b)).
Definition int_rem (a b : Z) : option Z :=
  if b =? 0 then None else Some (Z.rem a b).

Definition to_uint32 (z : Z) : Z := z mod 2 ^ 32.
Definition to_uint8 (z : Z) : Z := z mod 2 ^ 8.
Definition to_int32 (z : Z) : Z := (z + 2 ^ 31) mod 2 ^ 32 - 2 ^ 31.

Definition is_uint32 (z : Z) : Prop := 0 ≤ z < 2 ^ 32.
Definition is_uint8 (z : Z) : Prop := 0 ≤ z < 2 ^ 8.

(** Shifts on [uint32] operands: the left shift drops the bits that leave
    the word. *)
Definition uint32_shl (a n : Z) : Z := to_uint32 (Z.shiftl a n).
Definition uint32_shr (a n : Z) : Z := Z.shiftr a n.

(** ** Errors *)

Inductive error : Type :=
  | errors_New (msg : string)
  | io_EOF
  | io_ErrUnexpectedEOF
  | os_ErrNotExist
  | os_ErrPermission
  | gzip_ErrHeader
  | gzip_ErrChecksum.

(** ** Slices *)

(** [make([]T, n)] panics on a negative length.  The runtime also refuses
    a length whose elements take more than it can address, and can run out
    of memory before that; neither is modelled. *)
Definition make_slice {A : Type} (zero : A) (n : Z) : option (list A) :=
  if n <? 0 then None else Some (replicate (Z.to_nat n) zero).

(** [s[i]] and [s[i] = v] panic when [i] is out of range. *)
Definition slice_index {A : Type} (s : list A) (i : Z) : option A :=
  if i <? 0 then None else s !! Z.to_nat i.

Definition slice_store {A : Type} (s : list A) (i : Z) (v : A) : option (list A) :=
  if (0 <=? i) && (i <? Z.of_nat (length s))
  then Some (<[Z.to_nat i := v]> s)
  else None.

(** ** Loops *)

Inductive ctl (S : Type) : Type :=
  | Next (s : S)
  | Return (s : S).
Arguments Next {S} s.
Arguments Return {S} s.

Fixpoint range_loop {S : Type} (n : nat) (i : Z)
    (body : Z → S → option (ctl S)) (s : S) : option (ctl S) :=
  match n with
  | O => Some (Next s)
  | Datatypes.S n' =>
      match body i s with
      | None => None
      | Some (Return s') => Some (Return s')
      | Some (Next s') => range_loop n' (i + 1) body s'
      end
  end.

(** [for i := range n]: [i] runs over [0 .. n-1]; no iteration when [n <= 0]. *)
Definition for_range {S : Type} (n : Z)
    (body : Z → S → option (ctl S)) (s : S) : option (ctl S) :=
  range_loop (Z.to_nat n) 0 body s.

(** ** Cells *)

Record CellData : Type := mkCellData {
  Glyph : Z;  (* uint32 *)
  R_f : Z;    (* uint8 *)
  G_f : Z;
  B_f : Z;
  R_b : Z;
  G_b : Z;
  B_b : Z
}.

(** The zero value [CellData{}]. *)
Definition zero_CellData : CellData := mkCellData 0 0 0 0 0 0 0.

(** The fields of a cell are in the range of their Go types. *)
Definition wf_CellData (cd : CellData) : Prop :=
  is_uint32 (Glyph cd) ∧
  is_uint8 (R_f cd) ∧ is_uint8 (G_f cd) ∧ is_uint8 (B_f cd) ∧
  is_uint8 (R_b cd) ∧ is_uint8 (G_b cd) ∧ is_uint8 (B_b cd).

Definition ARGB (cd : CellData) : Z * Z :=
  let fore := to_uint32 (Z.shiftl 0xFF 24) in
  let fore := Z.lor fore (uint32_shl (to_uint32 (R_f cd)) 16) in
  let fore := Z.lor fore (uint32_shl (to_uint32 (G_f cd)) 8) in
  let fore := Z.lor fore (to_uint32 (B_f cd)) in
  let back := to_uint32 (Z.shiftl 0xFF 24) in
  let back := Z.lor back (uint32_shl (to_uint32 (R_b cd)) 16) in
  let back := Z.lor back (uint32_shl (to_uint32 (G_b cd)) 8) in
  let back := Z.lor back (to_uint32 (B_b cd)) in
  (fore, back).

Definition SetColoursARGB (cd : CellData) (fore back : Z) : CellData :=
  if to_uint8 (uint32_shr back 24) =? 0 then
    mkCellData (Glyph cd) (R_f cd) (G_f cd) (B_f cd) 0xFF 0 0xFF
  else
    mkCellData (Glyph cd)
      (to_uint8 (Z.land (uint32_shr fore 16) 0xFF))
      (to_uint8 (Z.land (uint32_shr fore 8) 0xFF))
      (to_uint8 (Z.land fore 0xFF))
      (to_uint8 (Z.land (uint32_shr back 16) 0xFF))
      (to_uint8 (Z.land (uint32_shr back 8) 0xFF))
      (to_uint8 (Z.land back 0xFF)).

Definition RGBA (cd : CellData) : Z * Z :=
  let fore := uint32_shl (to_uint32 (R_f cd)) 24 in
  let fore := Z.lor fore (uint32_shl (to_uint32 (G_f cd)) 16) in
  let fore := Z.lor fore (uint32_shl (to_uint32 (B_f cd)) 8) in
  let fore := Z.lor fore 0xFF in
  let back := uint32_shl (to_uint32 (R_b cd)) 24 in
  let back := Z.lor back (uint32_shl (to_uint32 (G_b cd)) 16) in
  let back := Z.lor back (uint32_shl (to_uint32 (B_b cd)) 8) in
  let back := Z.lor back 0xFF in
  (fore, back).

Definition SetColoursRGBA (cd : CellData) (fore back : Z) : CellData :=
  if to_uint8 (Z.land back 0xFF) =? 0 then
    mkCellData (Glyph cd) (R_f cd) (G_f cd) (B_f cd) 0xFF 0 0xFF
  else
    mkCellData (Glyph cd)
      (to_uint8 (Z.land (uint32_shr fore 24) 0xFF))
      (to_uint8 (Z.land (uint32_shr fore 16) 0xFF))
      (to_uint8 (Z.land (uint32_shr fore 8) 0xFF))
      (to_uint8 (Z.land (uint32_shr back 24) 0xFF))
      (to_uint8 (Z.land (uint32_shr back 16) 0xFF))
      (to_uint8 (Z.land (uint32_shr back 8) 0xFF)).

Definition Undrawn (cd : CellData) : bool :=
  (R_b cd =? 255) && (G_b cd =? 0) && (B_b cd =? 255).

Definition Clear (cd : CellData) : CellData :=
  let cd := mkCellData 0 (R_f cd) (G_f cd) (B_f cd) (R_b cd) (G_b cd) (B_b cd) in
  let cd := mkCellData (Glyph cd) (R_f cd) (G_f cd) (B_f cd) 0xFF 0 0xFF in
  mkCellData (Glyph cd) 0 0 0 (R_b cd) (G_b cd) (B_b cd).

(** ** Images *)

Record ImageData : Type := mkImageData {
  Width : Z;
  Height : Z;
  Cells : list CellData  (* will have Width*Height elements *)
}.

(** The zero value [ImageData{}]. *)
Definition zero_ImageData : ImageData := mkImageData 0 0 [].

Definition Init (width height : Z) : option ImageData :=
  cells ← make_slice zero_CellData (int_mul width height);
  Some (mkImageData width height (Clear <$> cells)).

Definition out_of_bounds (id : ImageData) (x y : Z) : bool :=
  (x >=? Width id) || (y >=? Height id) || (x <? 0) || (y <? 0).

Definition GetCell (id : ImageData) (x y : Z) : option (CellData * option error) :=
  if Z.of_nat (length (Cells id)) =? 0 then
    Some (zero_CellData, Some (errors_New "Image has no data."))
  else if out_of_bounds id x y then
    Some (zero_CellData, Some (errors_New "x, y coordinates out of bounds."))
  else
    cd ← slice_index (Cells id) (int_add x (int_mul y (Width id)));
    Some (cd, None).

Definition SetCell (id : ImageData) (x y : Z) (cell : CellData)
    : option (ImageData * option error) :=
  if out_of_bounds id x y then
    Some (id, Some (errors_New "x, y coordinates out of bounds."))
  else
    cells ← slice_store (Cells id) (int_add x (int_mul y (Width id))) cell;
    Some (mkImageData (Width id) (Height id) cells, None).

(** The Go expression [len(id.Cells) == id.Width*id.Height], whose product
    wraps around.  For dimensions whose product fits an [int] it says that
    the image has width times height cells ([exact_count] below); for
    others it can hold of an image that has not. *)
Definition invariant (id : ImageData) : Prop :=
  Z.of_nat (length (Cells id)) = int_mul (Width id) (Height id).

(** ** Bytes and [encoding/binary], little endian *)

Definition byte_to_Z (b : byte) : Z := Z.of_N (Byte.to_N b).
Definition byte_of_Z (z : Z) : byte :=
  default "000"%byte (Byte.of_N (Z.to_N (z mod 2 ^ 8))).

(** [binary.LittleEndian.PutUint32] and [binary.LittleEndian.Uint32]. *)
Definition PutUint32 (v : Z) : list byte :=
  byte_of_Z <$> Z_to_little_endian 4 8 v.
Definition Uint32 (bs : list byte) : Z :=
  little_endian_to_Z 8 (byte_to_Z <$> bs).

(** [binary.Write] into a [bytes.Buffer], which never fails: the buffer
    grows by the fixed-size encoding of the value. *)
Definition binary_Write_uint32 (buf : list byte) (v : Z) : list byte :=
  buf ++ PutUint32 v.
Definition binary_Write_int32 (buf : list byte) (v : Z) : list byte :=
  buf ++ PutUint32 (to_uint32 v).

(** A struct is encoded field by field in declaration order, without
    padding: ten bytes for a [CellData]. *)
Definition encode_CellData (c : CellData) : list byte :=
  PutUint32 (Glyph c) ++
  [byte_of_Z (R_f c); byte_of_Z (G_f c); byte_of_Z (B_f c);
   byte_of_Z (R_b c); byte_of_Z (G_b c); byte_of_Z (B_b c)].
Definition binary_Write_CellData (buf : list byte) (c : CellData) : list byte :=
  buf ++ encode_CellData c.

(** The decoding of the ten bytes read for a [CellData]. *)
Definition decode_CellData (bs : list byte) : CellData :=
  match bs with
  | g0 :: g1 :: g2 :: g3 :: rf :: gf :: bf :: rb :: gb :: bb :: _ =>
      mkCellData (Uint32 [g0; g1; g2; g3])
        (byte_to_Z rf) (byte_to_Z gf) (byte_to_Z bf)
        (byte_to_Z rb) (byte_to_Z gb) (byte_to_Z bb)
  | _ => zero_CellData
  end.

(** ** Readers *)

(** The decompressed stream: the bytes still to come, and the error the
    stream ends with ([io_EOF] for a complete gzip member). *)
Record Reader : Type := mkReader {
  pending : list byte;
  final : error
}.

(** [io.ReadFull] for a buffer of [n > 0] bytes: either [n] bytes, or the
    error of the stream once it is exhausted; a read that got some bytes
    and then [io_EOF] reports [io_ErrUnexpectedEOF]. *)
Definition io_ReadFull (r : Reader) (n : nat) : (list byte + error) * Reader :=
  if (n <=? length (pending r))%nat then
    (inl (take n (pending r)), mkReader (drop n (pending r)) (final r))
  else
    (inr match pending r, final r with
         | [], e => e
         | _ :: _, io_EOF => io_ErrUnexpectedEOF
         | _ :: _, e => e
         end,
     mkReader [] (final r)).

(** [err = binary.Read(data, binary.LittleEndian, &v)]: the new value of
    [v] (unchanged on error), the error, and the reader after the call. *)
Definition binary_Read_uint32 (r : Reader) (v : Z) : Z * option error * Reader :=
  match io_ReadFull r 4 with
  | (inl bs, r') => (Uint32 bs, None, r')
  | (inr e, r') => (v, Some e, r')
  end.

Definition binary_Read_int32 (r : Reader) (v : Z) : Z * option error * Reader :=
  match io_ReadFull r 4 with
  | (inl bs, r') => (to_int32 (Uint32 bs), None, r')
  | (inr e, r') => (v, Some e, r')
  end.

Definition binary_Read_CellData (r : Reader) (c : CellData)
    : CellData * option error * Reader :=
  match io_ReadFull r 10 with
  | (inl bs, r') => (decode_CellData bs, None, r')
  | (inr e, r') => (c, Some e, r')
  end.

(** ** Import: the decoder *)

(** The variables of [Import] that its loops update. *)
Record import_state : Type := mkImportState {
  st_data : Reader;
  st_image : ImageData;
  st_err : option error
}.

(** Body of [for i := range image.Width * image.Height]. *)
Definition Import_cell (i : Z) (s : import_state) : option (ctl import_state) :=
  let '(c, err, data) := binary_Read_CellData (st_data s) zero_CellData in
  match err with
  | Some e => Some (Return (mkImportState data (st_image s) (Some e)))
  | None =>
      x ← int_quot i (Height (st_image s));
      y ← int_rem i (Height (st_image s));
      '(image, _) ← SetCell (st_image s) x y c;
      Some (Next (mkImportState data image None))
  end.

(** Body of [for layer := range int(numLayers)]. *)
Definition Import_layer (layer : Z) (s : import_state) : option (ctl import_state) :=
  let s :=
    if layer =? 0 then s
    else
      let '(_, _, data) := binary_Read_uint32 (st_data s) 0 in
      let '(_, err, data) := binary_Read_uint32 data 0 in
      mkImportState data (st_image s) err in
  for_range (int_mul (Width (st_image s)) (Height (st_image s))) Import_cell s.

(** [Import] from the point where the gzip reader [data] is open. *)
Definition Import_data (data : Reader) : option (ImageData * option error) :=
  let image := zero_ImageData in
  let '(version, _, data) := binary_Read_int32 data 0 in
  let '(numLayers, err, data) := binary_Read_uint32 data 0 in
  match err with
  | Some e => Some (image, Some e)
  | None =>
      let '(w, _, data) := binary_Read_uint32 data 0 in
      let '(h, err, data) := binary_Read_uint32 data 0 in
      match err with
      | Some e => Some (image, Some e)
      | None =>
          image ← Init w h;
          r ← for_range numLayers Import_layer (mkImportState data image None);
          match r with
          | Next s | Return s => Some (st_image s, st_err s)
          end
      end
  end.

(** ** Export: the encoder *)

(** Body of [for x := range image.Width]: the loop over [y]. *)
Definition Export_column (image : ImageData) (x : Z) (imagebuffer : list byte)
    : option (ctl (list byte)) :=
  for_range (Height image) (λ y imagebuffer,
    '(cell, _) ← GetCell image x y;
    Some (Next (binary_Write_CellData imagebuffer cell))) imagebuffer.

(** The contents of [imagebuffer] when it is handed to the gzip writer. *)
Definition Export_buffer (image : ImageData) : option (list byte) :=
  let imagebuffer := [] in
  let imagebuffer := binary_Write_int32 imagebuffer (-1) in
  let imagebuffer := binary_Write_uint32 imagebuffer 1 in
  let imagebuffer := binary_Write_uint32 imagebuffer (to_uint32 (Width image)) in
  let imagebuffer := binary_Write_uint32 imagebuffer (to_uint32 (Height image)) in
  r ← for_range (Width image) (Export_column image) imagebuffer;
  match r with
  | Next imagebuffer | Return imagebuffer => Some imagebuffer
  end.

(** ** Paths and files *)

(** [strings.HasSuffix]. *)
Definition HasSuffix (s suffix : string) : bool :=
  (String.length suffix <=? String.length s)%nat &&
  String.eqb
    (String.substring (String.length s - String.length suffix)
       (String.length suffix) s)
    suffix.

(** The file system: the contents of the files that exist, and the paths
    at which a file cannot be created. *)
Record FileSystem : Type := mkFileSystem {
  files : gmap string (list byte);
  denied : gset string
}.

Definition os_Open (fs : FileSystem) (path : string) : list byte + error :=
  match files fs !! path with
  | Some contents => inl contents
  | None => inr os_ErrNotExist
  end.

(** [os.Create] truncates or creates the file. *)
Definition os_Create (fs : FileSystem) (path : string) : FileSystem + error :=
  if decide (path ∈ denied fs) then inr os_ErrPermission
  else inl (mkFileSystem (<[path := []]> (files fs)) (denied fs)).

Definition file_Write (fs : FileSystem) (path : string) (bs : list byte) : FileSystem :=
  mkFileSystem (<[path := default [] (files fs !! path) ++ bs]> (files fs)) (denied fs).

Section Codec.

(** What a [gzip.Writer] leaves in the file for the bytes written to it,
    once closed; and what [gzip.NewReader] makes of the contents of a
    file: an error, or a stream of decompressed bytes. *)
Variable gzip_Writer : list byte → list byte.
Variable gzip_NewReader : list byte → Reader + error.

Definition Import (path : string) (fs : FileSystem)
    : option (ImageData * option error) :=
  let image := zero_ImageData in
  if negb (HasSuffix path ".xp") then
    Some (image, Some (errors_New "File is not an XP image."))
  else
    match os_Open fs path with
    | inr e => Some (image, Some e)
    | inl f =>
        match gzip_NewReader f with
        | inr e => Some (image, Some e)
        | inl data => Import_data data
        end
    end.

(** The file system after the call, and the error returned.  The writes to
    the file just created are taken to succeed: [zipper.Write] returns no
    error and the deferred [Close] leaves the whole gzip member in the
    file.  A write that fails, after which the file stays cut short, is
    outside the model.  When the encoding panics the state of the file
    system is not kept. *)
Definition Export (image : ImageData) (path : string) (fs : FileSystem)
    : option (FileSystem * option error) :=
  let path := if negb (HasSuffix path ".xp") then path +:+ ".xp" else path in
  match os_Create fs path with
  | inr e => Some (fs, Some e)
  | inl fs =>
      imagebuffer ← Export_buffer image;
      Some (file_Write fs path (gzip_Writer imagebuffer), None)
  end.

End Codec.

(** * Vocabulary of the statements *)

(** ** Streams *)

(** The state a run of the loops of [Import] ends in. *)
Definition ctl_state {S : Type} (c : ctl S) : S :=
  match c with Next s | Return s => s end.

(** The sixteen bytes before the first record. *)
Definition xp_header (version numLayers w h : Z) : list byte :=
  PutUint32 (to_uint32 version) ++ PutUint32 numLayers ++ PutUint32 w ++ PutUint32 h.

(** The records of a layer, one after the other. *)
Definition records (cs : list CellData) : list byte := cs ≫= encode_CellData.

(** A layer after the first: its two dimension words, then its records. *)
Definition xp_layer (l : Z * Z * list CellData) : list byte :=
  PutUint32 l.1.1 ++ PutUint32 l.1.2 ++ records l.2.

(** A stream of [1 + length more] layers for a [w] by [h] grid. *)
Definition xp_stream (version w h : Z) (first : list CellData)
    (more : list (Z * Z * list CellData)) : list byte :=
  xp_header version (1 + Z.of_nat (length more)) w h
    ++ records first ++ (more ≫= xp_layer).

(** The records of the last layer of a stream. *)
Definition top_layer (first : list CellData) (more : list (Z * Z * list CellData))
    : list CellData :=
  default first (snd <$> last more).

(** A layer has one record per cell of the grid, each within the range of
    its types. *)
Definition wf_layer (w h : Z) (cs : list CellData) : Prop :=
  Z.of_nat (length cs) = w * h ∧ Forall wf_CellData cs.

(** The first [n] records of a byte sequence. *)
Fixpoint parse_cells (n : nat) (bs : list byte) : list CellData :=
  match n with
  | O => []
  | S n' => decode_CellData (take 10 bs) :: parse_cells n' (drop 10 bs)
  end.

(** The fields of the header of a byte sequence. *)
Definition declared_layers (bs : list byte) : Z := Uint32 (take 4 (drop 4 bs)).
Definition declared_width (bs : list byte) : Z := Uint32 (take 4 (drop 8 bs)).
Definition declared_height (bs : list byte) : Z := Uint32 (take 4 (drop 12 bs)).

(** Bytes that [m] layers take from layer number [layer] on, for a grid of
    [n] cells: ten per record, and eight for the dimensions of every layer
    but the first. *)
Fixpoint layers_need (m : nat) (layer : Z) (n : nat) : nat :=
  match m with
  | O => 0
  | S m' => (if layer =? 0 then 0 else 8) + 10 * n + layers_need m' (layer + 1) n
  end.

(** The length a stream must have for the layers its header declares; a
    stream is truncated when it is shorter, so that some read of the header,
    of layer dimensions or of a record comes up short. *)
Definition required_length (bs : list byte) : nat :=
  16 + layers_need (Z.to_nat (declared_layers bs)) 0
         (Z.to_nat (declared_width bs * declared_height bs)).

Definition truncated (bs : list byte) : Prop :=
  (length bs < required_length bs)%nat.

(** ** Cell counts and painting *)

(** The relation that the comment on [Cells] and the specification state:
    the image has width times height cells, the product being the integer
    product. *)
Definition exact_count (id : ImageData) : Prop :=
  Z.of_nat (length (Cells id)) = Width id * Height id.

(** The bytes after the header are the layers one after the other: the
    [10 * n] bytes of the records of a layer, then the eight bytes of the
    dimensions of the next.  [record_at n body j k] is the [k]-th record of
    layer [j], when [body] holds all ten bytes of it. *)
Definition record_at (n : nat) (body : list byte) (j k : nat) : option CellData :=
  let start := (j * (10 * n + 8) + 10 * k)%nat in
  if decide (start + 10 ≤ length body)%nat
  then Some (decode_CellData (take 10 (drop start body)))
  else None.

(** The cell at stored index [k] once the [k]-th records that [body] holds
    in full for [m] layers have been painted over the cell [below], lowest
    layer first: the last of them, or [below] when there is none. *)
Definition painted_cell (m n : nat) (body : list byte) (below : CellData) (k : nat)
    : CellData :=
  default below (last (omap (λ j, record_at n body j k) (seq 0 m))).

(** The cells, in stored order, of a cleared grid of [n] cells into which
    the records that [body] holds in full have been painted. *)
Definition painted (m n : nat) (body : list byte) : list CellData :=
  painted_cell m n body (Clear zero_CellData) <$> seq 0 n.

(** ** The two orders of the cells *)

(** Where the cell at row-major slot [p] sits in the stored order. *)
Definition stored_index (w h p : Z) : Z := p `mod` w * h + p `div` w.

(** The [Cells] array of the grid whose records, in stored order, are [cs]. *)
Definition row_major (w h : Z) (cs : list CellData) : list CellData :=
  (λ p, default zero_CellData (cs !! Z.to_nat (stored_index w h p)))
    <$> seqZ 0 (w * h).

(** The cell of an image that the [k]-th record of its layer holds. *)
Definition stored_cell (img : ImageData) (k : Z) : CellData :=
  default zero_CellData
    (Cells img !! Z.to_nat (k `div` Height img + k `mod` Height img * Width img)).

(** The cells of an image in stored order. *)
Definition column_major (img : ImageData) : list CellData :=
  stored_cell img <$> seqZ 0 (Width img * Height img).

(** The records [cs] are the cells of [img] in stored order: the [k]-th is
    the cell at the coordinate ([k / Height], [k % Height]). *)
Definition stored_at (img : ImageData) (cs : list CellData) : Prop :=
  ∀ k, 0 ≤ k < Width img * Height img →
    ∃ c, cs !! Z.to_nat k = Some c
         ∧ GetCell img (k `div` Height img) (k `mod` Height img) = Some (c, None).

(** ** Colours and paths *)

(** Byte [k] of a packed colour, byte 0 being the lowest. *)
Definition channel (colour k : Z) : Z := (colour `div` 2 ^ (8 * k)) `mod` 2 ^ 8.

(** The path [Export] writes to. *)
Definition xp_path (path : string) : string :=
  if HasSuffix path ".xp" then path else path +:+ ".xp".

(** ** Sample data *)

(** A stand-in for gzip that frames the bytes with the two magic bytes of
    a gzip member and stores them as they are. *)
Definition stored_Writer (bs : list byte) : list byte := x1f :: x8b :: bs.
Definition stored_NewReader (f : list byte) : Reader + error :=
  match f with
  | x1f :: x8b :: bs => inl (mkReader bs io_EOF)
  | _ => inr gzip_ErrHeader
  end.

Definition empty_fs : FileSystem := mkFileSystem ∅ ∅.

(** A cell that only has a glyph. *)
Definition glyph_cell (g : Z) : CellData := mkCellData g 0 0 0 0 0 0.

(** The README's cell: an 'X', white on black. *)
Definition cell_X : CellData := mkCellData 88 255 255 255 0 0 0.
Definition image_X : ImageData := mkImageData 1 1 [cell_X].

(** A single layer, two columns by three rows, glyphs 100 to 105 in stored
    order. *)
Definition stream_2x3 : list byte :=
  xp_stream (-1) 2 3 (glyph_cell <$> seqZ 100 6) [].

(** A one-cell grid in two layers: a drawn cell below, an undrawn one on
    top. *)
Definition stream_two_layers : list byte :=
  xp_stream (-1) 1 1 [cell_X] [(1, 1, [Clear zero_CellData])].

(** A one by two grid cut in the middle of its second record. *)
Definition stream_cut : list byte :=
  xp_header (-1) 1 1 2 ++ encode_CellData cell_X ++ PutUint32 89.

(** An image wider than the width field of the format, without cells. *)
Definition image_wide : ImageData := mkImageData (2 ^ 32) 0 [].

(** A value of the image type that declares a cell and holds none. *)
Definition image_hollow : ImageData := mkImageData 1 1 [].

(** A file system holding the file that [Export] writes for [image_X]. *)
Definition fs_X : FileSystem :=
  mkFileSystem
    {[ "x.xp"%string :=
         stored_Writer (xp_header (-1) 1 1 1 ++ encode_CellData cell_X) ]}
    ∅.

(** A file system holding a file of two layers. *)
Definition fs_two_layers : FileSystem :=
  mkFileSystem {[ "two.xp"%string := stored_Writer stream_two_layers ]} ∅.

(** * Properties *)

(** Reduce the projections of the records of the model, and nothing else. *)
Tactic Notation "fields" :=
  cbn [pending final Width Height Cells st_data st_image st_err fst snd].
Tactic Notation "fields" "in" hyp(H) :=
  cbn [pending final Width Height Cells st_data st_image st_err fst snd] in H.

(** ** Bytes and words *)

Lemma byte_to_Z_range b : 0 ≤ byte_to_Z b < 2 ^ 8.
Proof.
  unfold byte_to_Z. pose proof (Byte.to_N_bounded b). lia.
Qed.

Lemma byte_to_of_Z z : byte_to_Z (byte_of_Z z) = z mod 2 ^ 8.
Proof.
  unfold byte_to_Z, byte_of_Z.
  pose proof (Z.mod_pos_bound z (2 ^ 8) ltac:(lia)) as Hz.
  destruct (Byte.of_N (Z.to_N (z mod 2 ^ 8))) as [b|] eqn:Hb; simpl.
  - apply Byte.to_of_N in Hb. rewrite Hb. lia.
  - apply Byte.of_N_None_iff in Hb. lia.
Qed.

Lemma byte_of_to_Z b : byte_of_Z (byte_to_Z b) = b.
Proof.
  unfold byte_of_Z. rewrite Z.mod_small by apply byte_to_Z_range.
  unfold byte_to_Z. rewrite N2Z.id, Byte.of_to_N. done.
Qed.

Lemma length_PutUint32 v : length (PutUint32 v) = 4%nat.
Proof.
  unfold PutUint32. rewrite length_fmap.
  pose proof (length_Z_to_little_endian 4 8 v ltac:(lia)). lia.
Qed.

Lemma Uint32_PutUint32 v : Uint32 (PutUint32 v) = to_uint32 v.
Proof.
  unfold Uint32, PutUint32, to_uint32.
  rewrite <- list_fmap_compose.
  rewrite (list_fmap_ext (byte_to_Z ∘ byte_of_Z) id (Z_to_little_endian 4 8 v)).
  - rewrite list_fmap_id. by rewrite little_endian_to_Z_to_little_endian by lia.
  - intros i x Hx. simpl. rewrite byte_to_of_Z.
    apply Z.mod_small.
    pose proof (Z_to_little_endian_bound 4 8 v ltac:(lia) ltac:(lia)) as Hall.
    rewrite Forall_lookup in Hall. by apply (Hall i).
Qed.

Lemma int_wrap_small z : - 2 ^ 63 ≤ z < 2 ^ 63 → int_wrap z = z.
Proof. intros Hz. unfold int_wrap. rewrite Z.mod_small; lia. Qed.

Lemma to_uint32_small z : is_uint32 z → to_uint32 z = z.
Proof. intros Hz. apply Z.mod_small, Hz. Qed.

Lemma Uint32_range bs : length bs = 4%nat → is_uint32 (Uint32 bs).
Proof.
  intros Hlen. unfold Uint32, is_uint32.
  pose proof (little_endian_to_Z_bound 8 (byte_to_Z <$> bs) ltac:(lia)) as Hb.
  rewrite length_fmap, Hlen in Hb. apply Hb.
  apply Forall_fmap, Forall_true. intros b. apply byte_to_Z_range.
Qed.

Lemma length_encode_CellData c : length (encode_CellData c) = 10%nat.
Proof. unfold encode_CellData. rewrite length_app, length_PutUint32. done. Qed.

Lemma decode_encode_CellData c :
  wf_CellData c → decode_CellData (encode_CellData c) = c.
Proof.
  intros (Hg & H1 & H2 & H3 & H4 & H5 & H6).
  unfold encode_CellData.
  pose proof (length_PutUint32 (Glyph c)) as Hlen.
  pose proof (Uint32_PutUint32 (Glyph c)) as Hrt.
  destruct (PutUint32 (Glyph c)) as [|g0 [|g1 [|g2 [|g3 [|]]]]]; try discriminate.
  simpl. rewrite Hrt, !byte_to_of_Z.
  unfold is_uint8 in *.
  rewrite to_uint32_small, !Z.mod_small by done.
  by destruct c.
Qed.

(** ** Reads *)

Lemma io_ReadFull_ok r n :
  (n ≤ length (pending r))%nat →
  io_ReadFull r n = (inl (take n (pending r)), mkReader (drop n (pending r)) (final r)).
Proof.
  intros Hn. unfold io_ReadFull.
  destruct (Nat.leb_spec n (length (pending r))); [done | lia].
Qed.

Lemma io_ReadFull_short r n :
  (length (pending r) < n)%nat →
  ∃ e, io_ReadFull r n = (inr e, mkReader [] (final r)).
Proof.
  intros Hn. unfold io_ReadFull.
  destruct (Nat.leb_spec n (length (pending r))); [lia | eauto].
Qed.

Lemma binary_Read_uint32_ok r v :
  (4 ≤ length (pending r))%nat →
  binary_Read_uint32 r v =
    (Uint32 (take 4 (pending r)), None, mkReader (drop 4 (pending r)) (final r)).
Proof. intros Hn. unfold binary_Read_uint32. by rewrite io_ReadFull_ok. Qed.

Lemma binary_Read_uint32_short r v :
  (length (pending r) < 4)%nat →
  ∃ e, binary_Read_uint32 r v = (v, Some e, mkReader [] (final r)).
Proof.
  intros Hn. unfold binary_Read_uint32.
  destruct (io_ReadFull_short r 4 Hn) as [e ->]. eauto.
Qed.

Lemma binary_Read_int32_ok r v :
  (4 ≤ length (pending r))%nat →
  binary_Read_int32 r v =
    (to_int32 (Uint32 (take 4 (pending r))), None,
     mkReader (drop 4 (pending r)) (final r)).
Proof. intros Hn. unfold binary_Read_int32. by rewrite io_ReadFull_ok. Qed.

Lemma binary_Read_int32_short r v :
  (length (pending r) < 4)%nat →
  ∃ e, binary_Read_int32 r v = (v, Some e, mkReader [] (final r)).
Proof.
  intros Hn. unfold binary_Read_int32.
  destruct (io_ReadFull_short r 4 Hn) as [e ->]. eauto.
Qed.

Lemma binary_Read_CellData_ok r c :
  (10 ≤ length (pending r))%nat →
  binary_Read_CellData r c =
    (decode_CellData (take 10 (pending r)), None,
     mkReader (drop 10 (pending r)) (final r)).
Proof. intros Hn. unfold binary_Read_CellData. by rewrite io_ReadFull_ok. Qed.

Lemma binary_Read_CellData_short r c :
  (length (pending r) < 10)%nat →
  ∃ e, binary_Read_CellData r c = (c, Some e, mkReader [] (final r)).
Proof.
  intros Hn. unfold binary_Read_CellData.
  destruct (io_ReadFull_short r 10 Hn) as [e ->]. eauto.
Qed.

(** ** Index arithmetic of the column-major order *)
Lemma div_mod_of (a b q r : Z) :
  0 ≤ r < b → a = q * b + r → a `div` b = q ∧ a `mod` b = r.
Proof.
  intros Hr ->. split.
  - symmetry. apply (Z.div_unique _ _ q r); lia.
  - symmetry. apply (Z.mod_unique _ _ q r); lia.
Qed.

Lemma stored_coord (w h k : Z) :
  0 ≤ w → 0 ≤ h → 0 ≤ k < w * h →
  0 < w ∧ 0 < h ∧ 0 ≤ k `div` h < w ∧ 0 ≤ k `mod` h < h.
Proof.
  intros Hw Hh Hk.
  assert (0 < w) by nia. assert (0 < h) by nia.
  pose proof (Z.mod_pos_bound k h ltac:(lia)).
  pose proof (Z.div_mod k h ltac:(lia)).
  assert (0 ≤ k `div` h) by (apply Z.div_pos; lia).
  repeat split; try lia. nia.
Qed.

Lemma stored_slot (w h k j : Z) :
  0 ≤ w → 0 ≤ h → 0 ≤ k < w * h → 0 ≤ j < w * h →
  j = k `div` h + k `mod` h * w ↔ j `mod` w * h + j `div` w = k.
Proof.
  intros Hw Hh Hk Hj.
  destruct (stored_coord w h k) as (Hw' & Hh' & Hx & Hy); try done.
  destruct (stored_coord h w j) as (_ & _ & Hy' & Hx'); try lia.
  split.
  - intros ->.
    destruct (div_mod_of (k `div` h + k `mod` h * w) w (k `mod` h) (k `div` h))
      as [-> ->]; try lia.
    pose proof (Z.div_mod k h ltac:(lia)). lia.
  - intros <-.
    destruct (div_mod_of (j `mod` w * h + j `div` w) h (j `mod` w) (j `div` w))
      as [-> ->]; try lia.
    pose proof (Z.div_mod j w ltac:(lia)). lia.
Qed.

(** ** The loop over the records of a layer *)

Lemma Import_cell_short k r img err :
  (length (pending r) < 10)%nat →
  ∃ e, Import_cell k (mkImportState r img err) =
         Some (Return (mkImportState (mkReader [] (final r)) img (Some e))).
Proof.
  intros Hn. unfold Import_cell. simpl.
  destruct (binary_Read_CellData_short r zero_CellData Hn) as [e ->]. eauto.
Qed.

Lemma Import_cell_ok w h cells k r err :
  0 ≤ w → 0 ≤ h → w * h < 2 ^ 63 → Z.of_nat (length cells) = w * h →
  0 ≤ k < w * h → (10 ≤ length (pending r))%nat →
  Import_cell k (mkImportState r (mkImageData w h cells) err) =
    Some (Next (mkImportState (mkReader (drop 10 (pending r)) (final r))
      (mkImageData w h
         (<[Z.to_nat (k `div` h + k `mod` h * w) :=
              decode_CellData (take 10 (pending r))]> cells))
      None)).
Proof.
  intros Hw Hh Hwh Hlen Hk Hn.
  destruct (stored_coord w h k) as (Hw' & Hh' & Hx & Hy); try done.
  unfold Import_cell. simpl. rewrite binary_Read_CellData_ok by done.
  unfold int_quot, int_rem.
  destruct (Z.eqb_spec h 0) as [?|_]; [lia|].
  rewrite Z.quot_div_nonneg, Z.rem_mod_nonneg by lia.
  assert (w ≤ w * h ∧ h ≤ w * h) as [??] by nia.
  rewrite int_wrap_small by lia. simpl.
  unfold SetCell, out_of_bounds. simpl.
  destruct (Z.geb_spec (k `div` h) w); [lia|].
  destruct (Z.geb_spec (k `mod` h) h); [lia|].
  destruct (Z.ltb_spec (k `div` h) 0); [lia|].
  destruct (Z.ltb_spec (k `mod` h) 0); [lia|]. simpl.
  unfold int_add, int_mul.
  rewrite (int_wrap_small (k `mod` h * w)) by nia.
  rewrite int_wrap_small by nia.
  unfold slice_store.
  destruct (Z.leb_spec 0 (k `div` h + k `mod` h * w)); [|nia].
  destruct (Z.ltb_spec (k `div` h + k `mod` h * w) (Z.of_nat (length cells))); [|nia].
  done.
Qed.

Lemma cells_loop_ok w h :
  0 ≤ w → 0 ≤ h → w * h < 2 ^ 63 →
  ∀ (n : nat) k cells r err,
    Z.of_nat (length cells) = w * h →
    0 ≤ k → k + Z.of_nat n ≤ w * h →
    (10 * n ≤ length (pending r))%nat →
    ∃ cells',
      range_loop n k Import_cell (mkImportState r (mkImageData w h cells) err) =
        Some (Next (mkImportState
          (mkReader (drop (10 * n) (pending r)) (final r))
          (mkImageData w h cells')
          (match n with O => err | _ => None end)))
      ∧ length cells' = length cells
      ∧ ∀ p, 0 ≤ p < w * h →
          cells' !! Z.to_nat p =
            if decide (k ≤ stored_index w h p < k + Z.of_nat n)
            then parse_cells n (pending r) !! Z.to_nat (stored_index w h p - k)
            else cells !! Z.to_nat p.
Proof.
  intros Hw Hh Hwh n. induction n as [|n IH]; intros k cells r err Hlen Hk Hkn Hbytes.
  - exists cells. simpl. rewrite drop_0. destruct r. split_and!; [done..|].
    intros p Hp. case_decide; [lia | done].
  - simpl range_loop.
    rewrite (Import_cell_ok w h) by (try done; lia).
    set (c0 := decode_CellData (take 10 (pending r))).
    set (slot := Z.to_nat (k `div` h + k `mod` h * w)).
    destruct (IH (k + 1) (<[slot := c0]> cells)
                (mkReader (drop 10 (pending r)) (final r)) None)
      as (cells' & Hrun & Hlen' & Hlook).
    { by rewrite length_insert. }
    { lia. }
    { lia. }
    { simpl. rewrite length_drop. lia. }
    exists cells'. simpl in Hrun. rewrite Hrun. split_and!.
    + rewrite drop_drop. do 4 f_equal.
      * f_equal. lia.
      * by destruct n.
    + by rewrite Hlen', length_insert.
    + intros p Hp. rewrite (Hlook p Hp). simpl pending.
      destruct (stored_coord w h k) as (Hw' & Hh' & Hx & Hy); [done | done | lia |].
      assert (0 ≤ stored_index w h p < w * h) as Hi.
      { unfold stored_index.
        destruct (stored_coord h w p) as (_ & _ & ? & ?); [done | done | lia |]. nia. }
      destruct (decide (stored_index w h p = k)) as [Heq | Hne].
      * assert (p = k `div` h + k `mod` h * w) as Hslot.
        { apply stored_slot; [done | done | lia | done | done]. }
        rewrite decide_False by lia. rewrite decide_True by lia.
        rewrite Heq, Z.sub_diag. simpl.
        subst slot. rewrite <- Hslot. apply list_lookup_insert_eq. lia.
      * assert (p ≠ k `div` h + k `mod` h * w) as Hslot.
        { intros Hp'. apply Hne. apply stored_slot; [done | done | lia | done | done]. }
        rewrite list_lookup_insert_ne by (subst slot; lia).
        destruct (decide (k + 1 ≤ stored_index w h p < k + 1 + Z.of_nat n)).
        -- rewrite decide_True by lia.
           replace (Z.to_nat (stored_index w h p - k))
             with (S (Z.to_nat (stored_index w h p - (k + 1)))) by lia.
           done.
        -- rewrite decide_False by lia. done.
Qed.

Lemma cells_loop_short w h :
  0 ≤ w → 0 ≤ h → w * h < 2 ^ 63 →
  ∀ (n : nat) k cells r err,
    Z.of_nat (length cells) = w * h →
    0 ≤ k → k + Z.of_nat n ≤ w * h →
    (length (pending r) < 10 * n)%nat →
    ∃ cells' e,
      range_loop n k Import_cell (mkImportState r (mkImageData w h cells) err) =
        Some (Return (mkImportState (mkReader [] (final r))
                        (mkImageData w h cells') (Some e)))
      ∧ length cells' = length cells.
Proof.
  intros Hw Hh Hwh n. induction n as [|n IH]; intros k cells r err Hlen Hk Hkn Hbytes.
  - lia.
  - simpl range_loop.
    destruct (decide (length (pending r) < 10)%nat) as [Hshort | Hlong].
    + destruct (Import_cell_short k r (mkImageData w h cells) err Hshort) as [e ->].
      by exists cells, e.
    + rewrite (Import_cell_ok w h) by (try done; lia).
      destruct (IH (k + 1)
                  (<[Z.to_nat (k `div` h + k `mod` h * w) :=
                       decode_CellData (take 10 (pending r))]> cells)
                  (mkReader (drop 10 (pending r)) (final r)) None)
        as (cells' & e & Hrun & Hlen').
      { by rewrite length_insert. }
      { lia. }
      { lia. }
      { simpl. rewrite length_drop. lia. }
      exists cells', e. simpl in Hrun. rewrite Hrun. split; [done|].
      by rewrite Hlen', length_insert.
Qed.

Lemma length_row_major w h cs : length (row_major w h cs) = Z.to_nat (w * h).
Proof. unfold row_major. by rewrite length_fmap, length_seqZ. Qed.

Lemma lookup_row_major w h cs p :
  0 ≤ p < w * h →
  row_major w h cs !! Z.to_nat p =
    Some (default zero_CellData (cs !! Z.to_nat (stored_index w h p))).
Proof.
  intros Hp. unfold row_major. rewrite list_lookup_fmap.
  rewrite lookup_seqZ_lt by lia. simpl. by rewrite Z2Nat.id by lia.
Qed.

Lemma length_parse_cells n bs : length (parse_cells n bs) = n.
Proof. revert bs. induction n as [|n IH]; intros bs; simpl; [done | by rewrite IH]. Qed.

(** One whole layer of records, read into the grid. *)
Lemma layer_cells_ok w h cells r err :
  0 ≤ w → 0 ≤ h → w * h < 2 ^ 63 →
  Z.of_nat (length cells) = w * h →
  (10 * Z.to_nat (w * h) ≤ length (pending r))%nat →
  for_range (int_mul w h) Import_cell (mkImportState r (mkImageData w h cells) err) =
    Some (Next (mkImportState
      (mkReader (drop (10 * Z.to_nat (w * h)) (pending r)) (final r))
      (mkImageData w h (row_major w h (parse_cells (Z.to_nat (w * h)) (pending r))))
      (if decide (w * h = 0) then err else None))).
Proof.
  intros Hw Hh Hwh Hlen Hbytes.
  unfold for_range, int_mul. rewrite int_wrap_small by nia.
  destruct (cells_loop_ok w h Hw Hh Hwh (Z.to_nat (w * h)) 0 cells r err)
    as (cells' & Hrun & Hlen' & Hlook); [done | lia | lia | done |].
  rewrite Hrun. do 4 f_equal.
  - f_equal. apply list_eq. intros i.
    destruct (decide (Z.of_nat i < w * h)) as [Hi | Hi].
    + specialize (Hlook (Z.of_nat i) ltac:(lia)).
      rewrite Nat2Z.id in Hlook. rewrite Hlook.
      assert (0 ≤ stored_index w h (Z.of_nat i) < w * h) as Hidx.
      { unfold stored_index.
        destruct (stored_coord h w (Z.of_nat i)) as (? & ? & ? & ?); [done | done | lia |].
        nia. }
      rewrite decide_True by lia. rewrite Z.sub_0_r.
      rewrite <- (Nat2Z.id i) at 2. rewrite lookup_row_major by lia.
      destruct (lookup_lt_is_Some_2 (parse_cells (Z.to_nat (w * h)) (pending r))
                  (Z.to_nat (stored_index w h (Z.of_nat i)))) as [c Hc].
      { rewrite length_parse_cells. lia. }
      by rewrite Hc.
    + rewrite !lookup_ge_None_2; [done | rewrite length_row_major; lia | lia].
  - destruct (Z.to_nat (w * h)) eqn:Hn.
    + rewrite decide_True by lia. done.
    + rewrite decide_False by lia. done.
Qed.

Lemma layer_cells_short w h cells r err :
  0 ≤ w → 0 ≤ h → w * h < 2 ^ 63 →
  Z.of_nat (length cells) = w * h →
  (length (pending r) < 10 * Z.to_nat (w * h))%nat →
  ∃ cells' e,
    for_range (int_mul w h) Import_cell (mkImportState r (mkImageData w h cells) err) =
      Some (Return (mkImportState (mkReader [] (final r))
                      (mkImageData w h cells') (Some e)))
    ∧ Z.of_nat (length cells') = w * h.
Proof.
  intros Hw Hh Hwh Hlen Hbytes.
  unfold for_range, int_mul. rewrite int_wrap_small by nia.
  destruct (cells_loop_short w h Hw Hh Hwh (Z.to_nat (w * h)) 0 cells r err)
    as (cells' & e & Hrun & Hlen'); [done | lia | lia | done |].
  exists cells', e. split; [done | lia].
Qed.

(** ** The loop over the layers *)

Lemma length_records cs : length (records cs) = (10 * length cs)%nat.
Proof.
  unfold records. induction cs as [|c cs IH]; [done|].
  rewrite bind_cons, length_app, length_encode_CellData, IH. simpl. lia.
Qed.

Lemma parse_cells_S n bs :
  parse_cells (S n) bs = decode_CellData (take 10 bs) :: parse_cells n (drop 10 bs).
Proof. done. Qed.

Lemma parse_cells_records cs rest :
  Forall wf_CellData cs →
  parse_cells (length cs) (records cs ++ rest) = cs.
Proof.
  unfold records. induction 1 as [|c cs Hc Hcs IH]; [done|].
  rewrite bind_cons, <- app_assoc, length_cons, parse_cells_S.
  rewrite take_app_length' by (by rewrite length_encode_CellData).
  rewrite drop_app_length' by (by rewrite length_encode_CellData).
  by rewrite decode_encode_CellData, IH.
Qed.

Lemma Import_layer_first s :
  Import_layer 0 s =
    for_range (int_mul (Width (st_image s)) (Height (st_image s))) Import_cell s.
Proof. done. Qed.

Lemma Import_layer_next_ok layer r img err :
  layer ≠ 0 → (8 ≤ length (pending r))%nat →
  Import_layer layer (mkImportState r img err) =
    for_range (int_mul (Width img) (Height img)) Import_cell
      (mkImportState (mkReader (drop 8 (pending r)) (final r)) img None).
Proof.
  intros Hl Hn. unfold Import_layer.
  destruct (Z.eqb_spec layer 0) as [? | _]; [done|]. simpl.
  rewrite binary_Read_uint32_ok by lia.
  rewrite binary_Read_uint32_ok by (simpl; rewrite length_drop; lia).
  simpl. by rewrite drop_drop.
Qed.

Lemma Import_layer_next_short layer r img err :
  layer ≠ 0 → (length (pending r) < 8)%nat →
  ∃ e, Import_layer layer (mkImportState r img err) =
    for_range (int_mul (Width img) (Height img)) Import_cell
      (mkImportState (mkReader [] (final r)) img (Some e)).
Proof.
  intros Hl Hn. unfold Import_layer.
  destruct (Z.eqb_spec layer 0) as [? | _]; [done|]. simpl.
  destruct (decide (length (pending r) < 4)%nat) as [Hw | Hw].
  - destruct (binary_Read_uint32_short r 0 Hw) as [e1 ->].
    destruct (binary_Read_uint32_short (mkReader [] (final r)) 0) as [e2 ->];
      [simpl; lia|]. eauto.
  - rewrite binary_Read_uint32_ok by lia.
    destruct (binary_Read_uint32_short (mkReader (drop 4 (pending r)) (final r)) 0)
      as [e2 ->]; [simpl; rewrite length_drop; lia|]. eauto.
Qed.

Section Layers.
Variables w h : Z.
Hypothesis Hw : 0 ≤ w.
Hypothesis Hh : 0 ≤ h.
Hypothesis Hwh : w * h < 2 ^ 63.

(** Once a read of layer dimensions has failed on an empty grid, every
    later layer fails the same way and the error stays. *)
Lemma layers_loop_failed (m : nat) layer cells fin e :
  0 < layer → Z.of_nat (length cells) = w * h →
  ∃ c cells' e',
    range_loop m layer Import_layer
      (mkImportState (mkReader [] fin) (mkImageData w h cells) (Some e)) = Some c
    ∧ ctl_state c = mkImportState (mkReader [] fin) (mkImageData w h cells') (Some e')
    ∧ Z.of_nat (length cells') = w * h.
Proof.
  revert layer cells e. induction m as [|m IH]; intros layer cells e Hl Hlen.
  - by exists (Next (mkImportState (mkReader [] fin) (mkImageData w h cells) (Some e))),
      cells, e.
  - simpl range_loop.
    destruct (Import_layer_next_short layer (mkReader [] fin) (mkImageData w h cells)
                (Some e)) as [e1 ->]; [lia | simpl; lia |].
    simpl Width. simpl Height. simpl final.
    destruct (decide (w * h = 0)) as [Hz | Hnz].
    + rewrite layer_cells_ok by (try done; simpl; lia).
      rewrite decide_True by done. simpl pending. rewrite drop_nil.
      apply IH; [lia|]. rewrite length_row_major. lia.
    + destruct (layer_cells_short w h cells (mkReader [] fin) (Some e1))
        as (cells' & e' & -> & Hlen'); [done.. | simpl; lia |].
      by eexists _, cells', e'.
Qed.

Lemma layers_loop_short (m : nat) layer cells r :
  0 ≤ layer → Z.of_nat (length cells) = w * h →
  (length (pending r) < layers_need m layer (Z.to_nat (w * h)))%nat →
  ∃ c cells' e',
    range_loop m layer Import_layer
      (mkImportState r (mkImageData w h cells) None) = Some c
    ∧ ctl_state c = mkImportState (mkReader [] (final r)) (mkImageData w h cells') (Some e')
    ∧ Z.of_nat (length cells') = w * h.
Proof.
  revert layer cells r. induction m as [|m IH]; intros layer cells r Hl Hlen Hbytes.
  - simpl in Hbytes. lia.
  - simpl in Hbytes. simpl range_loop.
    assert (∀ r0 : Reader,
      (length (pending r0) < 10 * Z.to_nat (w * h) + layers_need m (layer + 1) (Z.to_nat (w * h)))%nat →
      ∃ c cells' e',
        match for_range (int_mul w h) Import_cell
                (mkImportState r0 (mkImageData w h cells) None) with
        | Some (Next s') => range_loop m (layer + 1) Import_layer s'
        | Some (Return s') => Some (Return s')
        | None => None
        end = Some c
        ∧ ctl_state c = mkImportState (mkReader [] (final r0)) (mkImageData w h cells') (Some e')
        ∧ Z.of_nat (length cells') = w * h) as Hcells.
    { intros r0 Hr0.
      destruct (decide (length (pending r0) < 10 * Z.to_nat (w * h))%nat) as [Hs | Hs].
      - destruct (layer_cells_short w h cells r0 None)
          as (cells' & e' & -> & Hlen'); [done.. |].
        by eexists _, cells', e'.
      - rewrite layer_cells_ok by (try done; lia).
        replace (if decide (w * h = 0) then None else None) with (@None error)
          by by case_decide.
        destruct (IH (layer + 1)
                    (row_major w h (parse_cells (Z.to_nat (w * h)) (pending r0)))
                    (mkReader (drop (10 * Z.to_nat (w * h)) (pending r0)) (final r0)))
          as (c & cells' & e' & Hrun & Hst & Hlen'); [lia | | | ].
        + rewrite length_row_major. lia.
        + simpl. rewrite length_drop. lia.
        + by exists c, cells', e'. }
    destruct (Z.eqb_spec layer 0) as [-> | Hnz].
    + rewrite Import_layer_first. simpl st_image. simpl Width. simpl Height.
      destruct r as [bs fin]. apply (Hcells (mkReader bs fin)). simpl in *. lia.
    + destruct (decide (length (pending r) < 8)%nat) as [Hd | Hd].
      * destruct (Import_layer_next_short layer r (mkImageData w h cells) None)
          as [e1 ->]; [done.. |].
        simpl Width. simpl Height.
        destruct (decide (w * h = 0)) as [Hz | Hnz'].
        -- rewrite layer_cells_ok by (try done; simpl; lia).
           rewrite decide_True by done. simpl pending. rewrite drop_nil. simpl final.
           apply layers_loop_failed; [lia|]. rewrite length_row_major. lia.
        -- destruct (layer_cells_short w h cells (mkReader [] (final r)) (Some e1))
             as (cells' & e' & -> & Hlen'); [done.. | simpl; lia |].
           by eexists _, cells', e'.
      * rewrite Import_layer_next_ok by (done || lia).
        simpl Width. simpl Height.
        apply (Hcells (mkReader (drop 8 (pending r)) (final r))).
        simpl. rewrite length_drop. lia.
Qed.

Lemma layers_loop_enough (m : nat) layer cells r :
  0 ≤ layer → Z.of_nat (length cells) = w * h →
  (layers_need m layer (Z.to_nat (w * h)) ≤ length (pending r))%nat →
  ∃ cells',
    range_loop m layer Import_layer
      (mkImportState r (mkImageData w h cells) None) =
    Some (Next (mkImportState
      (mkReader (drop (layers_need m layer (Z.to_nat (w * h))) (pending r)) (final r))
      (mkImageData w h cells') None))
    ∧ Z.of_nat (length cells') = w * h.
Proof.
  revert layer cells r. induction m as [|m IH]; intros layer cells r Hl Hlen Hbytes.
  - exists cells. simpl. rewrite drop_0. by destruct r.
  - simpl in Hbytes. simpl range_loop. simpl layers_need.
    destruct (Z.eqb_spec layer 0) as [-> | Hnz].
    + rewrite Import_layer_first. simpl st_image. simpl Width. simpl Height.
      rewrite layer_cells_ok by (try done; lia).
      replace (if decide (w * h = 0) then None else None) with (@None error)
        by by case_decide.
      destruct (IH (0 + 1)
                  (row_major w h (parse_cells (Z.to_nat (w * h)) (pending r)))
                  (mkReader (drop (10 * Z.to_nat (w * h)) (pending r)) (final r)))
        as (cells' & -> & Hlen'); [lia | | | ].
      * rewrite length_row_major. lia.
      * simpl. rewrite length_drop. lia.
      * exists cells'. simpl. by rewrite drop_drop.
    + rewrite Import_layer_next_ok by (done || lia).
      simpl Width. simpl Height.
      rewrite layer_cells_ok by (try done; simpl; rewrite ?length_drop; lia).
      replace (if decide (w * h = 0) then None else None) with (@None error)
        by by case_decide.
      simpl pending. simpl final.
      destruct (IH (layer + 1)
                  (row_major w h (parse_cells (Z.to_nat (w * h)) (drop 8 (pending r))))
                  (mkReader (drop (10 * Z.to_nat (w * h)) (drop 8 (pending r))) (final r)))
        as (cells' & -> & Hlen'); [lia | | | ].
      * rewrite length_row_major. lia.
      * simpl. rewrite !length_drop. lia.
      * exists cells'. simpl. rewrite !drop_drop.
        split; [|done]. repeat f_equal; lia.
Qed.
End Layers.

(** ** The header *)

Lemma declared_range bs :
  (16 ≤ length bs)%nat →
  is_uint32 (declared_layers bs) ∧ is_uint32 (declared_width bs) ∧
  is_uint32 (declared_height bs).
Proof.
  intros Hn. unfold declared_layers, declared_width, declared_height.
  split_and!; apply Uint32_range; rewrite length_take, length_drop; lia.
Qed.

Lemma Import_data_no_header r :
  (length (pending r) < 16)%nat →
  ∃ e, Import_data r = Some (zero_ImageData, Some e).
Proof.
  intros Hn. unfold Import_data.
  destruct (decide (length (pending r) < 4)%nat) as [H4 | H4].
  { destruct (binary_Read_int32_short r 0 H4) as [e1 ->].
    destruct (binary_Read_uint32_short (mkReader [] (final r)) 0) as [e2 ->];
      [simpl; lia|]. eauto. }
  rewrite binary_Read_int32_ok by lia.
  destruct (decide (length (pending r) < 8)%nat) as [H8 | H8].
  { destruct (binary_Read_uint32_short (mkReader (drop 4 (pending r)) (final r)) 0)
      as [e2 ->]; [simpl; rewrite length_drop; lia|]. eauto. }
  rewrite binary_Read_uint32_ok by (simpl; rewrite length_drop; lia).
  simpl pending. simpl final. rewrite !drop_drop.
  destruct (decide (length (pending r) < 12)%nat) as [H12 | H12].
  { destruct (binary_Read_uint32_short (mkReader (drop (4 + 4) (pending r)) (final r)) 0)
      as [e1 ->]; [simpl; rewrite length_drop; lia|].
    cbv beta iota. simpl final.
    destruct (binary_Read_uint32_short (mkReader [] (final r)) 0) as [e2 ->];
      [simpl; lia|]. eauto. }
  rewrite binary_Read_uint32_ok by (simpl; rewrite length_drop; lia).
  destruct (binary_Read_uint32_short
              (mkReader (drop 4 (pending (mkReader (drop (4 + 4) (pending r)) (final r))))
                 (final (mkReader (drop (4 + 4) (pending r)) (final r)))) 0)
    as [e2 ->]; [simpl; rewrite !length_drop; lia|]. eauto.
Qed.

Lemma Import_data_header r :
  (16 ≤ length (pending r))%nat →
  Import_data r =
    image ← Init (declared_width (pending r)) (declared_height (pending r));
    c ← for_range (declared_layers (pending r)) Import_layer
          (mkImportState (mkReader (drop 16 (pending r)) (final r)) image None);
    Some (st_image (ctl_state c), st_err (ctl_state c)).
Proof.
  intros Hn. unfold Import_data.
  rewrite binary_Read_int32_ok by lia.
  rewrite binary_Read_uint32_ok by (simpl; rewrite length_drop; lia).
  simpl pending. simpl final.
  rewrite binary_Read_uint32_ok by (simpl; rewrite !length_drop; lia).
  rewrite binary_Read_uint32_ok by (simpl; rewrite !length_drop; lia).
  simpl pending. simpl final. rewrite !drop_drop.
  unfold declared_layers, declared_width, declared_height. simpl.
  destruct (Init _ _) as [image|]; [|done]. simpl.
  destruct (for_range _ _ _) as [[s|s]|]; done.
Qed.

Lemma Init_ok w h :
  0 ≤ w * h < 2 ^ 63 →
  Init w h = Some (mkImageData w h (replicate (Z.to_nat (w * h)) (Clear zero_CellData))).
Proof.
  intros Hwh. unfold Init, make_slice, int_mul. rewrite int_wrap_small by lia.
  destruct (Z.ltb_spec (w * h) 0); [lia|]. simpl. by rewrite fmap_replicate.
Qed.

Lemma Init_overflow w h :
  is_uint32 w → is_uint32 h → 2 ^ 63 ≤ w * h → Init w h = None.
Proof.
  intros Hw Hh Hwh. unfold Init, make_slice, int_mul, int_wrap, is_uint32 in *.
  assert ((w * h + 2 ^ 63) `mod` 2 ^ 64 = w * h - 2 ^ 63) as ->.
  { symmetry. apply (Z.mod_unique _ _ 1); nia. }
  destruct (Z.ltb_spec (w * h - 2 ^ 63 - 2 ^ 63) 0); [done | nia].
Qed.

(** ** The loops of [Export] *)

Lemma records_snoc cs c : records (cs ++ [c]) = records cs ++ encode_CellData c.
Proof.
  unfold records. rewrite bind_app, bind_cons.
  change ([] ≫= encode_CellData) with (@nil byte). by rewrite app_nil_r.
Qed.

Lemma GetCell_in_bounds img x y :
  Z.of_nat (length (Cells img)) = Width img * Height img →
  Width img * Height img < 2 ^ 63 →
  0 ≤ x < Width img → 0 ≤ y < Height img →
  ∃ c, Cells img !! Z.to_nat (x + y * Width img) = Some c
       ∧ GetCell img x y = Some (c, None).
Proof.
  intros Hlen Hwh Hx Hy.
  assert (0 ≤ x + y * Width img < Width img * Height img) as Hidx by nia.
  destruct (lookup_lt_is_Some_2 (Cells img) (Z.to_nat (x + y * Width img))) as [c Hc];
    [lia|].
  exists c. split; [done|].
  unfold GetCell, out_of_bounds.
  destruct (Z.eqb_spec (Z.of_nat (length (Cells img))) 0); [lia|].
  destruct (Z.geb_spec x (Width img)); [lia|].
  destruct (Z.geb_spec y (Height img)); [lia|].
  destruct (Z.ltb_spec x 0); [lia|].
  destruct (Z.ltb_spec y 0); [lia|]. simpl.
  unfold int_add, int_mul, slice_index.
  rewrite (int_wrap_small (y * Width img)) by nia.
  rewrite int_wrap_small by nia.
  destruct (Z.ltb_spec (x + y * Width img) 0); [lia|].
  by rewrite Hc.
Qed.

Section Export_loops.
Variable img : ImageData.
Hypothesis Hw : 0 ≤ Width img.
Hypothesis Hh : 0 ≤ Height img.
Hypothesis Hlen : Z.of_nat (length (Cells img)) = Width img * Height img.
Hypothesis Hwh : Width img * Height img < 2 ^ 63.

Lemma Export_column_loop x buf0 (n : nat) y :
  0 ≤ x < Width img → 0 ≤ y → y + Z.of_nat n ≤ Height img →
  range_loop n y (λ y buf,
      '(cell, _) ← GetCell img x y;
      Some (Next (binary_Write_CellData buf cell)))
    (buf0 ++ records (stored_cell img <$> seqZ 0 (x * Height img + y))) =
  Some (Next (buf0 ++ records (stored_cell img <$>
                                 seqZ 0 (x * Height img + y + Z.of_nat n)))).
Proof.
  intros Hx. revert y. induction n as [|n IH]; intros y Hy Hyn.
  - simpl. by rewrite Z.add_0_r.
  - simpl range_loop.
    destruct (GetCell_in_bounds img x y) as (c & Hc & ->); [done | done | lia | lia |].
    simpl. unfold binary_Write_CellData.
    rewrite <- app_assoc, <- records_snoc.
    assert ((stored_cell img <$> seqZ 0 (x * Height img + y)) ++ [c] =
            stored_cell img <$> seqZ 0 (x * Height img + (y + 1))) as ->.
    { replace (x * Height img + (y + 1)) with (x * Height img + y + 1) by lia.
      rewrite (seqZ_app 0 (x * Height img + y) 1) by nia.
      rewrite fmap_app, Z.add_0_l.
      rewrite (seqZ_cons (x * Height img + y) 1) by lia.
      rewrite (seqZ_nil _ (Z.pred 1)) by lia. simpl. f_equal. f_equal.
      unfold stored_cell.
      destruct (div_mod_of (x * Height img + y) (Height img) x y) as [-> ->];
        [lia | done |].
      by rewrite Hc. }
    rewrite IH by lia.
    by replace (x * Height img + (y + 1) + Z.of_nat n)
      with (x * Height img + y + Z.of_nat (S n)) by lia.
Qed.

Lemma Export_rows_loop buf0 (n : nat) x :
  0 ≤ x → x + Z.of_nat n ≤ Width img →
  range_loop n x (Export_column img)
    (buf0 ++ records (stored_cell img <$> seqZ 0 (x * Height img))) =
  Some (Next (buf0 ++ records (stored_cell img <$>
                                 seqZ 0 ((x + Z.of_nat n) * Height img)))).
Proof.
  revert x. induction n as [|n IH]; intros x Hx Hxn.
  - simpl. by rewrite Z.add_0_r.
  - simpl range_loop. unfold Export_column at 1, for_range.
    pose proof (Export_column_loop x buf0 (Z.to_nat (Height img)) 0) as Hcol.
    rewrite Z.add_0_r in Hcol. rewrite Hcol by lia.
    replace (x * Height img + Z.of_nat (Z.to_nat (Height img)))
      with ((x + 1) * Height img) by lia.
    rewrite IH by lia.
    by replace ((x + 1 + Z.of_nat n) * Height img)
      with ((x + Z.of_nat (S n)) * Height img) by lia.
Qed.

Lemma Export_buffer_ok :
  Export_buffer img =
    Some (xp_header (-1) 1 (to_uint32 (Width img)) (to_uint32 (Height img))
            ++ records (column_major img)).
Proof.
  unfold Export_buffer, for_range.
  pose proof (Export_rows_loop
                (xp_header (-1) 1 (to_uint32 (Width img)) (to_uint32 (Height img)))
                (Z.to_nat (Width img)) 0) as Hrows.
  rewrite Z.mul_0_l in Hrows. rewrite seqZ_nil in Hrows by lia.
  change (records (stored_cell img <$> [])) with (@nil byte) in Hrows.
  rewrite app_nil_r in Hrows.
  unfold binary_Write_int32, binary_Write_uint32, xp_header in *.
  rewrite app_nil_l. repeat rewrite <- app_assoc.
  rewrite Hrows by lia. simpl.
  unfold column_major. repeat rewrite <- app_assoc.
  by replace ((0 + Z.of_nat (Z.to_nat (Width img))) * Height img)
    with (Width img * Height img) by lia.
Qed.
End Export_loops.

(** ** Decoding a well-formed stream *)

Lemma length_xp_header v n w h : length (xp_header v n w h) = 16%nat.
Proof. unfold xp_header. by rewrite !length_app, !length_PutUint32. Qed.

Lemma declared_xp_header v n w h rest :
  declared_layers (xp_header v n w h ++ rest) = to_uint32 n ∧
  declared_width (xp_header v n w h ++ rest) = to_uint32 w ∧
  declared_height (xp_header v n w h ++ rest) = to_uint32 h.
Proof.
  unfold declared_layers, declared_width, declared_height, xp_header.
  repeat rewrite <- app_assoc.
  pose proof (length_PutUint32 (to_uint32 v)).
  pose proof (length_PutUint32 n).
  pose proof (length_PutUint32 w).
  pose proof (length_PutUint32 h).
  split_and!.
  - rewrite drop_app_length' by done. rewrite take_app_length' by done.
    apply Uint32_PutUint32.
  - rewrite (app_assoc (PutUint32 (to_uint32 v))).
    rewrite drop_app_length' by (rewrite length_app; lia).
    rewrite take_app_length' by done. apply Uint32_PutUint32.
  - rewrite (app_assoc (PutUint32 (to_uint32 v))).
    rewrite (app_assoc (PutUint32 (to_uint32 v) ++ PutUint32 n)).
    rewrite drop_app_length' by (rewrite !length_app; lia).
    rewrite take_app_length' by done. apply Uint32_PutUint32.
Qed.

Section Streams.
Variables w h : Z.
Hypothesis Hw : is_uint32 w.
Hypothesis Hh : is_uint32 h.
Hypothesis Hwh : w * h < 2 ^ 63.

Lemma layer_records_ok cs cells rest fin err :
  wf_layer w h cs → Z.of_nat (length cells) = w * h →
  for_range (int_mul w h) Import_cell
    (mkImportState (mkReader (records cs ++ rest) fin) (mkImageData w h cells) err) =
  Some (Next (mkImportState (mkReader rest fin) (mkImageData w h (row_major w h cs))
                (if decide (w * h = 0) then err else None))).
Proof.
  intros [Hlen Hwf] Hcells. unfold is_uint32 in *.
  rewrite layer_cells_ok; try done; try lia.
  - fields.
    replace (Z.to_nat (w * h)) with (length cs) by lia.
    rewrite parse_cells_records by done.
    rewrite drop_app_length' by (by rewrite length_records). done.
  - fields. rewrite length_app, length_records. lia.
Qed.

Lemma layers_loop_stream more :
  Forall (λ l, wf_layer w h l.2) more →
  ∀ layer cells rest fin,
    0 < layer → Z.of_nat (length cells) = w * h →
    range_loop (length more) layer Import_layer
      (mkImportState (mkReader ((more ≫= xp_layer) ++ rest) fin)
         (mkImageData w h cells) None) =
    Some (Next (mkImportState (mkReader rest fin)
                  (mkImageData w h (default cells (row_major w h ∘ snd <$> last more)))
                  None)).
Proof.
  induction 1 as [|l more Hl Hmore IH]; intros layer cells rest fin Hlayer Hcells.
  - done.
  - rewrite bind_cons. cbn [range_loop length]. unfold xp_layer at 1.
    repeat rewrite <- app_assoc.
    rewrite Import_layer_next_ok;
      [| lia | fields; rewrite !length_app, !length_PutUint32; lia].
    fields.
    rewrite (app_assoc (PutUint32 l.1.1)).
    rewrite drop_app_length' by (by rewrite length_app, !length_PutUint32).
    rewrite layer_records_ok by (done || lia).
    replace (if decide (w * h = 0) then None else None) with (@None error)
      by by case_decide.
    rewrite IH; [| lia | rewrite length_row_major; destruct Hl; unfold is_uint32 in *; nia].
    destruct more as [|l' more'].
    + reflexivity.
    + rewrite (last_cons_cons l).
      destruct (last (l' :: more')) eqn:Hlast; [done|].
      by apply last_None in Hlast.
Qed.

Lemma Import_data_stream version first more rest fin :
  wf_layer w h first → Forall (λ l, wf_layer w h l.2) more →
  1 + Z.of_nat (length more) < 2 ^ 32 →
  Import_data (mkReader (xp_stream version w h first more ++ rest) fin) =
    Some (mkImageData w h (row_major w h (top_layer first more)), None).
Proof.
  intros Hfirst Hmore Hcount. unfold xp_stream.
  pose proof (length_xp_header version (1 + Z.of_nat (length more)) w h) as Hhdr.
  rewrite Import_data_header by (fields; rewrite !length_app; lia).
  fields.
  destruct (declared_xp_header version (1 + Z.of_nat (length more)) w h
              ((records first ++ (more ≫= xp_layer)) ++ rest)) as (Hn & Hw' & Hh').
  rewrite <- app_assoc, Hn, Hw', Hh'.
  rewrite !to_uint32_small by (done || (unfold is_uint32; lia)).
  rewrite drop_app_length' by done.
  unfold is_uint32 in *.
  rewrite Init_ok by nia. cbn [mbind option_bind].
  unfold for_range.
  replace (Z.to_nat (1 + Z.of_nat (length more))) with (S (length more)) by lia.
  cbn [range_loop]. rewrite Import_layer_first. fields.
  rewrite <- app_assoc.
  rewrite layer_records_ok; [| done | rewrite length_replicate; nia].
  replace (if decide (w * h = 0) then None else None) with (@None error)
    by by case_decide.
  rewrite layers_loop_stream; [| done | lia | rewrite length_row_major; nia].
  cbn [mbind option_bind ctl_state]. fields. do 3 f_equal. unfold top_layer.
  by destruct (last more).
Qed.
End Streams.

(** ** Encoding, then decoding *)

Lemma wf_zero_CellData : wf_CellData zero_CellData.
Proof. unfold wf_CellData, is_uint32, is_uint8. simpl. lia. Qed.

Lemma invariant_exact img :
  is_uint32 (Width img) → is_uint32 (Height img) → invariant img →
  Z.of_nat (length (Cells img)) = Width img * Height img
  ∧ Width img * Height img < 2 ^ 63.
Proof.
  unfold invariant, int_mul, int_wrap, is_uint32. intros Hw Hh Hinv.
  assert (0 ≤ Width img * Height img < 2 ^ 64) as Hprod by nia.
  destruct (decide (Width img * Height img < 2 ^ 63)) as [Hsmall | Hbig].
  - rewrite Z.mod_small in Hinv by lia. lia.
  - assert ((Width img * Height img + 2 ^ 63) `mod` 2 ^ 64
            = Width img * Height img - 2 ^ 63) as Hmod.
    { symmetry. apply (Z.mod_unique _ _ 1); lia. }
    lia.
Qed.

Lemma wf_column_major img :
  0 ≤ Width img * Height img →
  Forall wf_CellData (Cells img) →
  wf_layer (Width img) (Height img) (column_major img).
Proof.
  intros Hwh Hwf. split.
  - unfold column_major. rewrite length_fmap, length_seqZ. lia.
  - unfold column_major. apply Forall_fmap, Forall_true. intros k.
    unfold stored_cell, compose.
    destruct (Cells img !! _) as [c|] eqn:Hc; simpl.
    + rewrite Forall_lookup in Hwf. by apply (Hwf _ _ Hc).
    + apply wf_zero_CellData.
Qed.

Lemma row_major_column_major img :
  0 ≤ Width img → 0 ≤ Height img →
  Z.of_nat (length (Cells img)) = Width img * Height img →
  row_major (Width img) (Height img) (column_major img) = Cells img.
Proof.
  intros Hw Hh Hlen. apply list_eq. intros i.
  destruct (decide (Z.of_nat i < Width img * Height img)) as [Hi | Hi].
  - rewrite <- (Nat2Z.id i). rewrite lookup_row_major by lia.
    assert (0 ≤ stored_index (Width img) (Height img) (Z.of_nat i)
              < Width img * Height img) as Hidx.
    { unfold stored_index.
      destruct (stored_coord (Height img) (Width img) (Z.of_nat i))
        as (? & ? & ? & ?); [done | done | lia |]. nia. }
    unfold column_major. rewrite list_lookup_fmap.
    rewrite lookup_seqZ_lt by lia. simpl.
    rewrite Z2Nat.id by lia. unfold stored_cell. rewrite !Z.add_0_l.
    assert (Z.of_nat i =
            stored_index (Width img) (Height img) (Z.of_nat i) `div` Height img
            + stored_index (Width img) (Height img) (Z.of_nat i) `mod` Height img
              * Width img) as <-.
    { apply stored_slot; [done | done | done | lia | done]. }
    destruct (lookup_lt_is_Some_2 (Cells img) (Z.to_nat (Z.of_nat i))) as [c Hc];
      [lia|].
    by rewrite Hc.
  - rewrite !lookup_ge_None_2; [done | lia | rewrite length_row_major; lia].
Qed.

(** Decoding what [Export] put in its buffer gives the image back. *)
Lemma Import_data_Export_buffer img fin :
  is_uint32 (Width img) → is_uint32 (Height img) → invariant img →
  Forall wf_CellData (Cells img) →
  ∃ buf, Export_buffer img = Some buf
         ∧ Import_data (mkReader buf fin) = Some (img, None).
Proof.
  intros Hw Hh Hinv Hwf.
  destruct (invariant_exact img Hw Hh Hinv) as [Hlen Hwh].
  unfold is_uint32 in Hw, Hh.
  eexists. split.
  - apply Export_buffer_ok; (done || lia).
  - rewrite !to_uint32_small by done.
    pose proof (Import_data_stream (Width img) (Height img) Hw Hh Hwh (-1)
                  (column_major img) [] [] fin) as Hdec.
    unfold xp_stream in Hdec. cbn [length mbind list_bind] in Hdec.
    rewrite !app_nil_r in Hdec. change (1 + Z.of_nat 0) with 1 in Hdec.
    rewrite Hdec; [| apply wf_column_major; [nia | done] | done | lia].
    unfold top_layer. cbn [last fmap option_fmap option_map default].
    rewrite row_major_column_major by lia. by destruct img.
Qed.

(** ** Every outcome of the decoder *)

Lemma layers_need_next (m : nat) layer n :
  0 < layer → layers_need m layer n = (m * (8 + 10 * n))%nat.
Proof.
  revert layer. induction m as [|m IH]; intros layer Hl; [done|].
  simpl layers_need. destruct (Z.eqb_spec layer 0); [lia|].
  rewrite IH by lia. lia.
Qed.

Lemma layers_need_first (m : nat) n :
  layers_need m 0 n = (m * (10 * n) + 8 * (m - 1))%nat.
Proof.
  destruct m as [|m]; [done|].
  simpl layers_need. rewrite layers_need_next by lia. lia.
Qed.

Lemma required_length_formula bs :
  required_length bs =
    (16 + Z.to_nat (declared_layers bs)
          * (10 * Z.to_nat (declared_width bs * declared_height bs))
     + 8 * (Z.to_nat (declared_layers bs) - 1))%nat.
Proof. unfold required_length. rewrite layers_need_first. lia. Qed.

Lemma invariant_zero_ImageData : invariant zero_ImageData.
Proof. done. Qed.

Lemma invariant_grid w h cells :
  0 ≤ w * h < 2 ^ 63 → Z.of_nat (length cells) = w * h →
  invariant (mkImageData w h cells).
Proof.
  intros Hwh Hlen. unfold invariant, int_mul. simpl.
  by rewrite int_wrap_small by lia.
Qed.

Lemma Import_data_outcome r :
  ((16 ≤ length (pending r))%nat →
   declared_width (pending r) * declared_height (pending r) < 2 ^ 63) →
  ∃ img err,
    Import_data r = Some (img, err)
    ∧ invariant img
    ∧ (truncated (pending r) → err ≠ None)
    ∧ (¬ truncated (pending r) → err = None)
    ∧ ((length (pending r) < 16)%nat → img = zero_ImageData)
    ∧ ((16 ≤ length (pending r))%nat →
       Width img = declared_width (pending r)
       ∧ Height img = declared_height (pending r)).
Proof.
  intros Halloc. unfold truncated, required_length.
  destruct (decide (length (pending r) < 16)%nat) as [Hshort | Hlong].
  - destruct (Import_data_no_header r Hshort) as [e ->].
    exists zero_ImageData, (Some e).
    split_and!; [done | apply invariant_zero_ImageData | done | lia | done | lia].
  - destruct (declared_range (pending r)) as (Hn & Hw & Hh); [lia|].
    specialize (Halloc ltac:(lia)).
    set (n := declared_layers (pending r)) in *.
    set (w := declared_width (pending r)) in *.
    set (h := declared_height (pending r)) in *.
    unfold is_uint32 in *.
    rewrite Import_data_header by lia. fold n w h.
    rewrite Init_ok by nia. cbn [mbind option_bind]. unfold for_range.
    set (cells0 := replicate (Z.to_nat (w * h)) (Clear zero_CellData)).
    assert (Z.of_nat (length cells0) = w * h) as Hlen0.
    { subst cells0. rewrite length_replicate. nia. }
    destruct (decide (length (pending r) <
                      16 + layers_need (Z.to_nat n) 0 (Z.to_nat (w * h)))%nat)
      as [Htr | Htr].
    + destruct (layers_loop_short w h ltac:(lia) ltac:(lia) Halloc (Z.to_nat n) 0 cells0
                  (mkReader (drop 16 (pending r)) (final r)))
        as (c & cells' & e' & -> & Hst & Hlen'); [lia | done | |].
      { cbn [pending]. rewrite length_drop. lia. }
      cbn [mbind option_bind]. rewrite Hst. cbn [st_image st_err].
      exists (mkImageData w h cells'), (Some e').
      split_and!; [done | apply invariant_grid; [nia | done] | done | done | lia | done].
    + destruct (layers_loop_enough w h ltac:(lia) ltac:(lia) Halloc (Z.to_nat n) 0 cells0
                  (mkReader (drop 16 (pending r)) (final r)))
        as (cells' & -> & Hlen'); [lia | done | |].
      { cbn [pending]. rewrite length_drop. lia. }
      cbn [mbind option_bind ctl_state st_image st_err].
      exists (mkImageData w h cells'), None.
      split_and!; [done | apply invariant_grid; [nia | done] | done | done | lia | done].
Qed.

(** ** Suffixes and files *)

Lemma string_length_app (a b : string) :
  String.length (a +:+ b) = (String.length a + String.length b)%nat.
Proof. induction a as [|c a IH]; simpl; [done | by rewrite IH]. Qed.

Lemma substring_all (s : string) : String.substring 0 (String.length s) s = s.
Proof. induction s as [|c s IH]; simpl; [done | by rewrite IH]. Qed.

Lemma substring_app_r (a b : string) :
  String.substring (String.length a) (String.length b) (a +:+ b) = b.
Proof. induction a as [|c a IH]; simpl; [apply substring_all | done]. Qed.

Lemma substring_split (s : string) (n : nat) :
  (n ≤ String.length s)%nat →
  s = String.substring 0 n s +:+ String.substring n (String.length s - n) s.
Proof.
  revert n. induction s as [|c s IH]; intros n Hn; simpl in *.
  - by destruct n.
  - destruct n as [|n]; simpl.
    + by rewrite substring_all.
    + rewrite (IH n) at 1 by lia. reflexivity.
Qed.

Lemma HasSuffix_app (stem suffix : string) : HasSuffix (stem +:+ suffix) suffix = true.
Proof.
  unfold HasSuffix. rewrite string_length_app.
  destruct (Nat.leb_spec (String.length suffix) (String.length stem + String.length suffix));
    [|lia].
  replace (String.length stem + String.length suffix - String.length suffix)%nat
    with (String.length stem) by lia.
  rewrite substring_app_r. simpl. apply String.eqb_refl.
Qed.

Lemma HasSuffix_inv (s suffix : string) :
  HasSuffix s suffix = true → ∃ stem, s = stem +:+ suffix.
Proof.
  unfold HasSuffix. intros H. apply andb_prop in H as [Hlen Heq].
  apply Nat.leb_le in Hlen. apply String.eqb_eq in Heq.
  exists (String.substring 0 (String.length s - String.length suffix) s).
  pose proof (substring_split s (String.length s - String.length suffix)
                ltac:(lia)) as Hsplit.
  replace (String.length s - (String.length s - String.length suffix))%nat
    with (String.length suffix) in Hsplit by lia.
  by rewrite Heq in Hsplit.
Qed.

Lemma HasSuffix_spec (s suffix : string) :
  HasSuffix s suffix = true ↔ ∃ stem, s = stem +:+ suffix.
Proof.
  split; [apply HasSuffix_inv|]. intros [stem ->]. apply HasSuffix_app.
Qed.

Lemma xp_path_suffix path : HasSuffix (xp_path path) ".xp" = true.
Proof.
  unfold xp_path. destruct (HasSuffix path ".xp") eqn:Hs; [done|].
  apply HasSuffix_app.
Qed.

Section Files.
Variable gzip_Writer : list byte → list byte.
Variable gzip_NewReader : list byte → Reader + error.

Lemma Export_unfold img path fs :
Export gzip_Writer img path fs =
  match os_Create fs (xp_path path) with
  | inr e => Some (fs, Some e)
  | inl fs1 =>
      buf ← Export_buffer img;
      Some (file_Write fs1 (xp_path path) (gzip_Writer buf), None)
  end.
Proof. unfold Export, xp_path. by destruct (HasSuffix path ".xp"). Qed.

Lemma Export_creates img path fs buf :
xp_path path ∉ denied fs → Export_buffer img = Some buf →
Export gzip_Writer img path fs =
  Some (mkFileSystem (<[xp_path path := gzip_Writer buf]> (files fs)) (denied fs),
        None).
Proof.
intros Hok Hbuf. rewrite Export_unfold. unfold os_Create.
rewrite decide_False by done. rewrite Hbuf. cbn [mbind option_bind].
unfold file_Write. cbn [files denied].
by rewrite lookup_insert_eq, insert_insert_eq.
Qed.

Lemma Import_opens path fs f data :
HasSuffix path ".xp" = true → files fs !! path = Some f →
gzip_NewReader f = inl data →
Import gzip_NewReader path fs = Import_data data.
Proof.
intros Hs Hf Hgz. unfold Import, os_Open. by rewrite Hs, Hf, Hgz.
Qed.

Lemma Import_rejects path fs :
HasSuffix path ".xp" = false →
Import gzip_NewReader path fs =
  Some (zero_ImageData, Some (errors_New "File is not an XP image.")).
Proof. intros Hs. unfold Import. by rewrite Hs. Qed.
End Files.

(** ** Colours *)

Lemma land_255 x : Z.land x 0xFF = x `mod` 2 ^ 8.
Proof. change 0xFF with (Z.ones 8). apply Z.land_ones. lia. Qed.

Lemma to_uint8_channel x s k :
  0 ≤ k → s = 8 * k → to_uint8 (Z.land (uint32_shr x s) 0xFF) = channel x k.
Proof.
  intros Hk ->. unfold to_uint8, uint32_shr, channel.
  rewrite land_255, Z.shiftr_div_pow2 by lia.
  apply Z.mod_mod. lia.
Qed.

Lemma SetColoursARGB_unpack cd fore back :
  SetColoursARGB cd fore back =
    if decide (channel back 3 = 0) then
      mkCellData (Glyph cd) (R_f cd) (G_f cd) (B_f cd) 255 0 255
    else
      mkCellData (Glyph cd)
        (channel fore 2) (channel fore 1) (channel fore 0)
        (channel back 2) (channel back 1) (channel back 0).
Proof.
  unfold SetColoursARGB.
  assert (to_uint8 (uint32_shr back 24) = channel back 3) as ->.
  { unfold to_uint8, uint32_shr, channel. by rewrite Z.shiftr_div_pow2 by lia. }
  destruct (Z.eqb_spec (channel back 3) 0) as [Ha | Ha].
  - by rewrite decide_True.
  - rewrite decide_False by done.
    rewrite (to_uint8_channel fore 16 2), (to_uint8_channel fore 8 1) by lia.
    rewrite (to_uint8_channel back 16 2), (to_uint8_channel back 8 1) by lia.
    f_equal.
    + unfold to_uint8, channel. rewrite land_255, Z.mod_mod by lia.
      by rewrite Z.div_1_r.
    + unfold to_uint8, channel. rewrite land_255, Z.mod_mod by lia.
      by rewrite Z.div_1_r.
Qed.

Lemma SetColoursRGBA_unpack cd fore back :
  SetColoursRGBA cd fore back =
    if decide (channel back 0 = 0) then
      mkCellData (Glyph cd) (R_f cd) (G_f cd) (B_f cd) 255 0 255
    else
      mkCellData (Glyph cd)
        (channel fore 3) (channel fore 2) (channel fore 1)
        (channel back 3) (channel back 2) (channel back 1).
Proof.
  unfold SetColoursRGBA.
  assert (to_uint8 (Z.land back 0xFF) = channel back 0) as ->.
  { unfold to_uint8, channel. rewrite land_255, Z.mod_mod by lia.
    by rewrite Z.div_1_r. }
  destruct (Z.eqb_spec (channel back 0) 0) as [Ha | Ha].
  - by rewrite decide_True.
  - rewrite decide_False by done.
    by rewrite (to_uint8_channel fore 24 3), (to_uint8_channel fore 16 2),
      (to_uint8_channel fore 8 1), (to_uint8_channel back 24 3),
      (to_uint8_channel back 16 2), (to_uint8_channel back 8 1) by lia.
Qed.

(** C5, as amended.  [SetColoursARGB] looks at byte 3 of [back], the alpha
    byte of an ARGB colour: when it is zero the background becomes the
    undrawn sentinel (255, 0, 255) and the glyph and the foreground channels
    are left as they were; when it is not zero the foreground and background
    channels are bytes 2, 1 and 0 of [fore] and [back].  [SetColoursRGBA]
    does the same with byte 0 of [back] as the alpha byte and bytes 3, 2
    and 1 as red, green and blue. *)
Theorem SetColours_unpack cd fore back :
  SetColoursARGB cd fore back =
    (if decide (channel back 3 = 0) then
       mkCellData (Glyph cd) (R_f cd) (G_f cd) (B_f cd) 255 0 255
     else
       mkCellData (Glyph cd)
         (channel fore 2) (channel fore 1) (channel fore 0)
         (channel back 2) (channel back 1) (channel back 0))
  ∧ SetColoursRGBA cd fore back =
    (if decide (channel back 0 = 0) then
       mkCellData (Glyph cd) (R_f cd) (G_f cd) (B_f cd) 255 0 255
     else
       mkCellData (Glyph cd)
         (channel fore 3) (channel fore 2) (channel fore 1)
         (channel back 3) (channel back 2) (channel back 1)).
Proof. split; [apply SetColoursARGB_unpack | apply SetColoursRGBA_unpack]. Qed.

(** C5 as stated fails: with a zero alpha byte in the background colour a
    cell whose foreground is (10, 20, 30) is marked undrawn and keeps that
    foreground; it is not forced to black. *)
Lemma SetColoursARGB_keeps_foreground :
  let cd := SetColoursARGB (mkCellData 88 10 20 30 1 2 3) 0xFFFFFFFF 0x00112233 in
  Undrawn cd = true ∧ (R_f cd, G_f cd, B_f cd) = (10, 20, 30)
  ∧ (R_f cd, G_f cd, B_f cd) ≠ (0, 0, 0).
Proof. vm_compute. split_and!; [done | done | discriminate]. Qed.

(** C7, as amended.  After [Clear] a cell has glyph 0, foreground (0, 0, 0)
    and background (255, 0, 255); [Undrawn] holds of it, and [RGBA] packs
    its background as 0xFF00FFFF (and its foreground as 0x000000FF). *)
Theorem Clear_undrawn cd :
  Clear cd = mkCellData 0 0 0 0 255 0 255
  ∧ Undrawn (Clear cd) = true
  ∧ RGBA (Clear cd) = (0x000000FF, 0xFF00FFFF).
Proof. done. Qed.

(** C7 as stated fails: the background that [RGBA] returns for a cleared
    cell is not 0xFF0000FF. *)
Lemma Clear_RGBA_not_FF0000FF : (RGBA (Clear zero_CellData)).2 ≠ 0xFF0000FF.
Proof. vm_compute. discriminate. Qed.

(** On an image that has exactly width times height cells, [GetCell] and
    [SetCell] return an error for the same coordinates, those out of
    bounds, which are all coordinates when the image has no cells;
    elsewhere [GetCell] returns the cell at [x + y * Width] and [SetCell]
    replaces that cell and no other. *)
Lemma cell_access_exact img x y cell :
  Z.of_nat (length (Cells img)) = Width img * Height img →
  Width img * Height img < 2 ^ 63 →
  (Cells img = [] → out_of_bounds img x y = true)
  ∧ if out_of_bounds img x y then
      (∃ e, GetCell img x y = Some (zero_CellData, Some e))
      ∧ (∃ e, SetCell img x y cell = Some (img, Some e))
    else
      ∃ c, Cells img !! Z.to_nat (x + y * Width img) = Some c
           ∧ GetCell img x y = Some (c, None)
           ∧ SetCell img x y cell =
               Some (mkImageData (Width img) (Height img)
                       (<[Z.to_nat (x + y * Width img) := cell]> (Cells img)),
                     None).
Proof.
  intros Hlen Hwh. split.
  - intros Hnil. rewrite Hnil in Hlen. simpl in Hlen. unfold out_of_bounds.
    destruct (Z.geb_spec x (Width img)); [done|].
    destruct (Z.geb_spec y (Height img)); [done|].
    destruct (Z.ltb_spec x 0); [done|].
    destruct (Z.ltb_spec y 0); [done|]. nia.
  - destruct (out_of_bounds img x y) eqn:Hout.
    + split.
      * unfold GetCell. rewrite Hout. destruct (_ =? 0); eauto.
      * unfold SetCell. rewrite Hout. eauto.
    + unfold out_of_bounds in Hout.
      destruct (Z.geb_spec x (Width img)); [done|].
      destruct (Z.geb_spec y (Height img)); [done|].
      destruct (Z.ltb_spec x 0); [done|].
      destruct (Z.ltb_spec y 0); [done|].
      destruct (GetCell_in_bounds img x y) as (c & Hc & Hget); [done | done | lia | lia |].
      exists c. split_and!; [done | done |].
      unfold SetCell, out_of_bounds.
      destruct (Z.geb_spec x (Width img)); [lia|].
      destruct (Z.geb_spec y (Height img)); [lia|].
      destruct (Z.ltb_spec x 0); [lia|].
      destruct (Z.ltb_spec y 0); [lia|]. simpl.
      unfold int_add, int_mul, slice_store.
      rewrite (int_wrap_small (y * Width img)) by nia.
      rewrite int_wrap_small by nia.
      destruct (Z.leb_spec 0 (x + y * Width img)); [|nia].
      destruct (Z.ltb_spec (x + y * Width img) (Z.of_nat (length (Cells img)))); [|nia].
      done.
Qed.

(** C6, failing input.  On an image value that declares one cell and holds
    none, [GetCell] returns its error while [SetCell] passes its bounds
    check and panics on the store; [Init] produces such an image when the
    product of its arguments wraps around to zero. *)
Theorem SetCell_hollow_panics :
  GetCell image_hollow 0 0 =
    Some (zero_CellData, Some (errors_New "Image has no data."))
  ∧ (∀ cell, SetCell image_hollow 0 0 cell = None)
  ∧ Init (2 ^ 32) (2 ^ 32) = Some (mkImageData (2 ^ 32) (2 ^ 32) [])
  ∧ (∀ cell, SetCell (mkImageData (2 ^ 32) (2 ^ 32) []) 0 0 cell = None).
Proof. split_and!; done. Qed.

(** ** The invariant *)

Lemma Init_invariant w h img :
  Init w h = Some img →
  invariant img ∧ Width img = w ∧ Height img = h
  ∧ Forall (λ c, c = Clear zero_CellData ∧ Undrawn c = true) (Cells img).
Proof.
  unfold Init, make_slice. intros Hinit.
  destruct (Z.ltb_spec (int_mul w h) 0) as [Hneg | Hpos]; [done|].
  simpl in Hinit. injection Hinit as <-.
  unfold invariant. simpl. rewrite length_fmap, length_replicate.
  split_and!; [lia | done | done |].
  apply Forall_fmap, Forall_true. done.
Qed.

Lemma SetCell_invariant img x y cell img' err :
  SetCell img x y cell = Some (img', err) →
  Width img' = Width img ∧ Height img' = Height img
  ∧ length (Cells img') = length (Cells img)
  ∧ (invariant img → invariant img').
Proof.
  unfold SetCell, slice_store. intros Hset.
  destruct (out_of_bounds img x y).
  - injection Hset as <- <-. done.
  - destruct (_ && _); [|done]. simpl in Hset. injection Hset as <- <-.
    unfold invariant. simpl. rewrite length_insert. done.
Qed.

Lemma invariant_exact_product img :
  0 ≤ Width img * Height img < 2 ^ 63 →
  invariant img ↔ Z.of_nat (length (Cells img)) = Width img * Height img.
Proof.
  intros Hwh. unfold invariant, int_mul. by rewrite int_wrap_small by lia.
Qed.

Lemma Init_exact w h img :
  0 ≤ w → 0 ≤ h → w * h < 2 ^ 63 → Init w h = Some img →
  exact_count img ∧ Width img = w ∧ Height img = h.
Proof.
  intros Hw Hh Hwh Hinit. rewrite Init_ok in Hinit by nia.
  injection Hinit as <-. unfold exact_count. fields.
  rewrite length_replicate. split_and!; [nia | done | done].
Qed.

Lemma SetCell_exact img x y cell img' err :
  exact_count img → SetCell img x y cell = Some (img', err) →
  exact_count img' ∧ Width img' = Width img ∧ Height img' = Height img.
Proof.
  intros Hexact Hset.
  destruct (SetCell_invariant img x y cell img' err Hset) as (Hw & Hh & Hlen & _).
  unfold exact_count in *. rewrite Hw, Hh, Hlen. done.
Qed.

Lemma Import_data_exact r img err :
  Import_data r = Some (img, err) → exact_count img.
Proof.
  intros Hrun.
  destruct (decide (length (pending r) < 16)%nat) as [Hshort | Hlong].
  { destruct (Import_data_no_header r Hshort) as [e He].
    rewrite He in Hrun. by injection Hrun as <- <-. }
  destruct (declared_range (pending r)) as (_ & Hw & Hh); [lia|].
  destruct (decide (2 ^ 63 ≤ declared_width (pending r) * declared_height (pending r)))
    as [Hbig | Hfits].
  { rewrite Import_data_header in Hrun by lia. by rewrite Init_overflow in Hrun. }
  destruct (Import_data_outcome r) as (img' & err' & Hrun' & Hinv & _ & _ & _ & Hdims);
    [lia|].
  rewrite Hrun in Hrun'. injection Hrun' as <- <-.
  destruct Hdims as [Hw' Hh']; [lia|].
  apply invariant_exact; [by rewrite Hw' | by rewrite Hh' | done].
Qed.

Lemma Import_exact gzip_NewReader path fs img err :
  Import gzip_NewReader path fs = Some (img, err) → exact_count img.
Proof.
  unfold Import. intros Hrun.
  destruct (negb (HasSuffix path ".xp")).
  { by injection Hrun as <- <-. }
  destruct (os_Open fs path) as [f | e].
  - destruct (gzip_NewReader f) as [data | e].
    + by apply (Import_data_exact data img err).
    + by injection Hrun as <- <-.
  - by injection Hrun as <- <-.
Qed.

(** C9, as amended.  An image that [Init] returns for a width and a height
    that are not negative and whose product fits an [int] has exactly width
    times height cells, and the width and height given; the cells of every
    image that [Init] returns are all in the cleared, undrawn state.  Every
    image that [Import] returns, with an error or without, has exactly
    width times height cells.  [SetCell] keeps the count: it changes
    neither the dimensions nor the number of cells. *)
Theorem invariant_established :
  (∀ w h img,
     0 ≤ w → 0 ≤ h → w * h < 2 ^ 63 → Init w h = Some img →
     exact_count img ∧ Width img = w ∧ Height img = h)
  ∧ (∀ w h img,
       Init w h = Some img →
       Forall (λ c, c = Clear zero_CellData ∧ Undrawn c = true) (Cells img))
  ∧ (∀ gzip_NewReader path fs img err,
       Import gzip_NewReader path fs = Some (img, err) → exact_count img)
  ∧ (∀ img x y cell img' err,
       exact_count img → SetCell img x y cell = Some (img', err) →
       exact_count img' ∧ Width img' = Width img ∧ Height img' = Height img).
Proof.
  split_and!.
  - apply Init_exact.
  - intros w h img Hinit. by destruct (Init_invariant w h img Hinit) as (_ & _ & _ & ?).
  - apply Import_exact.
  - apply SetCell_exact.
Qed.

(** The three cases on sample data: [Init 2 3], the import of the file of
    [image_X], and a [SetCell] on [image_X]. *)
Lemma invariant_established_witness :
  exact_count (mkImageData 2 3 (replicate 6 (Clear zero_CellData)))
  ∧ exact_count image_X
  ∧ exact_count (mkImageData 1 1 [glyph_cell 1]).
Proof.
  destruct invariant_established as (HInit & _ & HImport & HSetCell).
  split_and!.
  - apply (HInit 2 3); [lia | lia | lia | reflexivity].
  - apply (HImport stored_NewReader "x.xp"%string fs_X image_X None).
    vm_compute. reflexivity.
  - apply (HSetCell image_X 0 0 (glyph_cell 1) _ None); reflexivity.
Defined.

(** C9 as stated fails: the width and height [2 ^ 32] are not negative,
    their product wraps around to zero, and [Init] returns an image of that
    width and height that holds no cell. *)
Lemma Init_wide_has_no_cells :
  0 ≤ 2 ^ 32
  ∧ Init (2 ^ 32) (2 ^ 32) = Some (mkImageData (2 ^ 32) (2 ^ 32) [])
  ∧ ¬ exact_count (mkImageData (2 ^ 32) (2 ^ 32) []).
Proof.
  split_and!.
  - lia.
  - vm_compute. reflexivity.
  - unfold exact_count. cbn [Cells Width Height length]. lia.
Qed.

(** ** Short reads *)

Lemma range_loop_app {S : Type} (body : Z → S → option (ctl S)) (a b : nat) :
  ∀ k s,
    range_loop (a + b) k body s =
      match range_loop a k body s with
      | Some (Next s') => range_loop b (k + Z.of_nat a) body s'
      | other => other
      end.
Proof.
  induction a as [|a IH]; intros k s.
  - simpl. by rewrite Z.add_0_r.
  - cbn [Nat.add range_loop].
    destruct (body k s) as [[s' | s'] |]; [|done..].
    rewrite IH. replace (k + 1 + Z.of_nat a) with (k + Z.of_nat (Datatypes.S a)) by lia.
    done.
Qed.

Lemma lookup_parse_cells (n k : nat) bs :
  (k < n)%nat →
  parse_cells n bs !! k = Some (decode_CellData (take 10 (drop (10 * k) bs))).
Proof.
  revert k bs. induction n as [|n IH]; intros k bs Hk; [lia|].
  destruct k as [|k].
  - by rewrite Nat.mul_0_r, drop_0.
  - cbn [parse_cells lookup list_lookup]. rewrite IH by lia. rewrite drop_drop.
    by replace (10 + 10 * k)%nat with (10 * S k)%nat by lia.
Qed.

Lemma stored_index_range w h p :
  0 ≤ w → 0 ≤ h → 0 ≤ p < w * h → 0 ≤ stored_index w h p < w * h.
Proof.
  intros Hw Hh Hp. unfold stored_index.
  destruct (stored_coord h w p) as (_ & _ & ? & ?); [done | done | lia |]. nia.
Qed.

Lemma row_major_ext w h cs cs' :
  0 ≤ w → 0 ≤ h →
  (∀ k : nat, (k < Z.to_nat (w * h))%nat →
     default zero_CellData (cs !! k) = default zero_CellData (cs' !! k)) →
  row_major w h cs = row_major w h cs'.
Proof.
  intros Hw Hh Hext. unfold row_major. apply list_fmap_ext.
  intros i p Hp. apply lookup_seqZ in Hp as [-> Hi].
  apply Hext. pose proof (stored_index_range w h (0 + Z.of_nat i) Hw Hh). lia.
Qed.

Lemma row_major_replicate w h c :
  0 ≤ w → 0 ≤ h →
  row_major w h (replicate (Z.to_nat (w * h)) c) = replicate (Z.to_nat (w * h)) c.
Proof.
  intros Hw Hh. apply list_eq. intros i.
  destruct (decide (Z.of_nat i < w * h)) as [Hi | Hi].
  - rewrite <- (Nat2Z.id i) at 1. rewrite lookup_row_major by lia.
    pose proof (stored_index_range w h (Z.of_nat i) Hw Hh).
    rewrite !lookup_replicate_2 by lia. done.
  - rewrite !lookup_ge_None_2;
      [done | rewrite length_replicate; lia | rewrite length_row_major; lia].
Qed.

(** A layer that the stream cuts: the records it holds in full are painted
    and the read of the next one returns. *)
Lemma layer_cells_cut w h cs r err :
  0 ≤ w → 0 ≤ h → w * h < 2 ^ 63 →
  (length (pending r) < 10 * Z.to_nat (w * h))%nat →
  ∃ e,
    for_range (int_mul w h) Import_cell
      (mkImportState r (mkImageData w h (row_major w h cs)) err) =
    Some (Return (mkImportState (mkReader [] (final r))
      (mkImageData w h
         (row_major w h
            (parse_cells (length (pending r) / 10) (pending r)
               ++ drop (length (pending r) / 10) cs)))
      (Some e))).
Proof.
  intros Hw Hh Hwh Hcut.
  set (q := (length (pending r) / 10)%nat).
  assert (length (pending r) = 10 * q + length (pending r) `mod` 10)%nat as Hdiv
    by apply Nat.div_mod_eq.
  pose proof (Nat.mod_upper_bound (length (pending r)) 10 ltac:(lia)) as Hmod.
  unfold for_range, int_mul. rewrite int_wrap_small by nia.
  replace (Z.to_nat (w * h)) with (q + Datatypes.S (Z.to_nat (w * h) - q - 1))%nat by lia.
  rewrite range_loop_app.
  destruct (cells_loop_ok w h Hw Hh Hwh q 0 (row_major w h cs) r err)
    as (cells' & -> & Hlen' & Hlook);
    [rewrite length_row_major; lia | lia | lia | lia |].
  cbn [range_loop].
  destruct (Import_cell_short (0 + Z.of_nat q)
              (mkReader (drop (10 * q) (pending r)) (final r))
              (mkImageData w h cells')
              (match q with O => err | _ => None end)) as [e ->].
  { cbn [pending]. rewrite length_drop. lia. }
  exists e. cbn [final]. do 4 f_equal. apply list_eq. intros i.
  rewrite length_row_major in Hlen'.
  destruct (decide (Z.of_nat i < w * h)) as [Hi | Hi].
  - specialize (Hlook (Z.of_nat i) ltac:(lia)).
    pose proof (lookup_row_major w h cs (Z.of_nat i) ltac:(lia)) as Hc0.
    pose proof (lookup_row_major w h
                  (parse_cells q (pending r) ++ drop q cs) (Z.of_nat i) ltac:(lia)) as Hc1.
    rewrite Nat2Z.id in Hlook, Hc0, Hc1. rewrite Hlook, Hc1, Hc0.
    pose proof (stored_index_range w h (Z.of_nat i) Hw Hh ltac:(lia)) as Hidx.
    set (j := stored_index w h (Z.of_nat i)) in *.
    case_decide as Hj.
    + rewrite Z.sub_0_r. rewrite lookup_app_l by (rewrite length_parse_cells; lia).
      destruct (lookup_lt_is_Some_2 (parse_cells q (pending r)) (Z.to_nat j)) as [c Hc].
      { rewrite length_parse_cells. lia. }
      by rewrite Hc.
    + rewrite lookup_app_r by (rewrite length_parse_cells; lia).
      rewrite length_parse_cells, lookup_drop.
      do 3 f_equal. lia.
  - rewrite !lookup_ge_None_2; [done | rewrite length_row_major; lia | lia].
Qed.

(** The reads of the dimensions of a layer leave the reader at its
    records, whether they succeed or not. *)
Lemma Import_layer_records layer r img err :
  0 ≤ layer →
  ∃ err',
    Import_layer layer (mkImportState r img err) =
      for_range (int_mul (Width img) (Height img)) Import_cell
        (mkImportState
           (mkReader (if layer =? 0 then pending r else drop 8 (pending r)) (final r))
           img err').
Proof.
  intros Hl. destruct (Z.eqb_spec layer 0) as [-> | Hnz].
  - exists err. rewrite Import_layer_first. by destruct r.
  - destruct (decide (length (pending r) < 8)%nat) as [Hd | Hd].
    + destruct (Import_layer_next_short layer r img err) as [e ->]; [done.. |].
      exists (Some e). by rewrite drop_ge by lia.
    + exists None. by rewrite Import_layer_next_ok by (done || lia).
Qed.

(** *** The painted cell, layer by layer *)

Lemma omap_fmap_S {A} (f : nat → option A) (l : list nat) :
  omap f (S <$> l) = omap (λ j, f (S j)) l.
Proof.
  induction l as [|x l IH]; [done|].
  cbn [fmap list_fmap omap list_omap]. fold (S <$> l). fold (omap f (S <$> l)).
  by rewrite IH.
Qed.

Lemma omap_none {A B} (f : A → option B) (l : list A) :
  (∀ x, x ∈ l → f x = None) → omap f l = [].
Proof.
  induction l as [|x l IH]; intros Hf; [done|].
  cbn [omap list_omap]. rewrite (Hf x) by (apply elem_of_cons; by left).
  apply IH. intros y Hy. apply Hf. apply elem_of_cons. by right.
Qed.

Lemma omap_ext_in {A B} (f g : A → option B) (l : list A) :
  (∀ x, f x = g x) → omap f l = omap g l.
Proof.
  intros Hfg. induction l as [|x l IH]; [done|].
  cbn [omap list_omap]. rewrite Hfg. fold (omap f l). fold (omap g l). by rewrite IH.
Qed.

Lemma record_at_next n body j k :
  record_at n body (S j) k = record_at n (drop (10 * n + 8) body) j k.
Proof.
  unfold record_at. cbv zeta. rewrite length_drop, drop_drop.
  replace (10 * n + 8 + (j * (10 * n + 8) + 10 * k))%nat
    with (S j * (10 * n + 8) + 10 * k)%nat by lia.
  destruct (decide (S j * (10 * n + 8) + 10 * k + 10 ≤ length body)%nat);
    destruct (decide (j * (10 * n + 8) + 10 * k + 10
                      ≤ length body - (10 * n + 8))%nat); done || lia.
Qed.

Lemma painted_cell_complete (m n : nat) body below k :
  (k < n)%nat → (10 * n ≤ length body)%nat →
  painted_cell (S m) n body below k =
    painted_cell m n (drop (10 * n + 8) body)
      (decode_CellData (take 10 (drop (10 * k) body))) k.
Proof.
  intros Hk Hlen. unfold painted_cell.
  cbn [seq omap list_omap]. rewrite <- fmap_S_seq.
  fold (omap (λ j, record_at n body j k) (S <$> seq 0 m)).
  rewrite omap_fmap_S.
  rewrite (omap_ext_in _ (λ j, record_at n (drop (10 * n + 8) body) j k))
    by (intros j; apply record_at_next).
  unfold record_at at 1. cbv zeta. rewrite Nat.mul_0_l, Nat.add_0_l.
  rewrite decide_True by lia. rewrite last_cons.
  by destruct (last _).
Qed.

Lemma painted_cell_cut (m n : nat) body below k :
  (length body < 10 * n)%nat →
  painted_cell (S m) n body below k =
    if decide (10 * k + 10 ≤ length body)%nat
    then decode_CellData (take 10 (drop (10 * k) body))
    else below.
Proof.
  intros Hlen. unfold painted_cell.
  cbn [seq omap list_omap].
  fold (omap (λ j, record_at n body j k) (seq 1 m)).
  rewrite (omap_none _ (seq 1 m)).
  - unfold record_at. cbv zeta. rewrite Nat.mul_0_l, Nat.add_0_l.
    by case_decide.
  - intros j Hj. apply elem_of_seq in Hj. unfold record_at. cbv zeta.
    apply decide_False. nia.
Qed.

Section Painting.
Variables w h : Z.
Hypothesis Hw : 0 ≤ w.
Hypothesis Hh : 0 ≤ h.
Hypothesis Hwh : w * h < 2 ^ 63.

(** The loop over the layers leaves, whether it runs to its end or
    returns from a short read, the grid painted with the records that the
    bytes hold in full. *)
Lemma layers_loop_painted (m : nat) :
  ∀ layer cs r err,
    0 ≤ layer →
    ∃ c,
      range_loop m layer Import_layer
        (mkImportState r (mkImageData w h (row_major w h cs)) err) = Some c
      ∧ st_image (ctl_state c) =
          mkImageData w h
            (row_major w h
               ((λ k, painted_cell m (Z.to_nat (w * h))
                        (if layer =? 0 then pending r else drop 8 (pending r))
                        (default zero_CellData (cs !! k)) k)
                  <$> seq 0 (Z.to_nat (w * h)))).
Proof.
  set (n := Z.to_nat (w * h)).
  assert (∀ (f : nat → CellData) (k : nat), (k < n)%nat →
            default zero_CellData ((f <$> seq 0 n) !! k) = f k) as Hseq.
  { intros f k Hk. by rewrite list_lookup_fmap, lookup_seq_lt by done. }
  induction m as [|m IH]; intros layer cs r err Hl.
  - eexists. split; [done|]. cbn [ctl_state st_image]. f_equal.
    apply row_major_ext; [done | done |]. intros k Hk. fold n in Hk.
    by rewrite Hseq.
  - cbn [range_loop].
    destruct (Import_layer_records layer r (mkImageData w h (row_major w h cs)) err Hl)
      as [err1 ->].
    cbn [Width Height].
    set (bs := if layer =? 0 then pending r else drop 8 (pending r)).
    destruct (decide (10 * n ≤ length bs)%nat) as [Hfull | Hcut].
    + rewrite layer_cells_ok;
        [| done | done | done | rewrite length_row_major; lia | done].
      cbn [pending final]. fold n.
      destruct (IH (layer + 1) (parse_cells n bs)
                  (mkReader (drop (10 * n) bs) (final r))
                  (if decide (w * h = 0) then err1 else None)) as (c & -> & Himg);
        [lia|].
      exists c. split; [done|]. rewrite Himg. f_equal.
      apply row_major_ext; [done | done |]. intros k Hk. fold n in Hk.
      rewrite !Hseq by done.
      destruct (Z.eqb_spec (layer + 1) 0); [lia|]. cbn [pending].
      rewrite painted_cell_complete by done.
      rewrite lookup_parse_cells by done. rewrite drop_drop.
      done.
    + destruct (layer_cells_cut w h cs (mkReader bs (final r)) err1)
        as [e ->]; [done | done | done | cbn [pending]; fold n; lia |].
      eexists. split; [done|]. cbn [ctl_state st_image pending]. f_equal.
      apply row_major_ext; [done | done |]. intros k Hk. fold n in Hk.
      rewrite Hseq by done. rewrite painted_cell_cut by lia.
      set (q := (length bs / 10)%nat).
      assert (length bs = 10 * q + length bs `mod` 10)%nat as Hdiv
        by apply Nat.div_mod_eq.
      pose proof (Nat.mod_upper_bound (length bs) 10 ltac:(lia)) as Hmod.
      case_decide as Hk'.
      * rewrite lookup_app_l by (rewrite length_parse_cells; lia).
        by rewrite lookup_parse_cells by lia.
      * rewrite lookup_app_r by (rewrite length_parse_cells; lia).
        rewrite length_parse_cells, lookup_drop. do 2 f_equal. lia.
Qed.
End Painting.

Lemma Init_fits w h img :
  is_uint32 w → is_uint32 h → Init w h = Some img → w * h < 2 ^ 63.
Proof.
  intros Hw Hh Hinit. destruct (decide (w * h < 2 ^ 63)) as [|Hbig]; [done|].
  rewrite Init_overflow in Hinit by (done || lia). done.
Qed.

(** What the decoder returns for any stream with a whole header, when the
    grid can be allocated. *)
Lemma Import_data_painted r img0 :
  (16 ≤ length (pending r))%nat →
  Init (declared_width (pending r)) (declared_height (pending r)) = Some img0 →
  ∃ err,
    Import_data r =
      Some (mkImageData (declared_width (pending r)) (declared_height (pending r))
              (row_major (declared_width (pending r)) (declared_height (pending r))
                 (painted (Z.to_nat (declared_layers (pending r)))
                    (Z.to_nat (declared_width (pending r) * declared_height (pending r)))
                    (drop 16 (pending r)))),
            err).
Proof.
  intros Hlen Hinit.
  destruct (declared_range (pending r) Hlen) as (_ & Hw & Hh).
  pose proof (Init_fits _ _ _ Hw Hh Hinit) as Hwh.
  set (w := declared_width (pending r)) in *.
  set (h := declared_height (pending r)) in *.
  unfold is_uint32 in Hw, Hh.
  rewrite Import_data_header by done. fold w h.
  rewrite Init_ok by nia. cbn [mbind option_bind]. unfold for_range.
  rewrite <- (row_major_replicate w h) by lia.
  destruct (layers_loop_painted w h ltac:(lia) ltac:(lia) Hwh
              (Z.to_nat (declared_layers (pending r))) 0
              (replicate (Z.to_nat (w * h)) (Clear zero_CellData))
              (mkReader (drop 16 (pending r)) (final r)) None) as (c & -> & Himg);
    [lia|].
  cbn [mbind option_bind]. rewrite Himg. eexists. do 3 f_equal.
  apply row_major_ext; [lia | lia |]. intros k Hk.
  unfold painted. rewrite !list_lookup_fmap, !lookup_seq_lt by done.
  cbn [fmap option_fmap option_map default]. cbn [Z.eqb pending].
  by rewrite lookup_replicate_2 by done.
Qed.

(** C4, as amended.  When the stream is shorter than the layers of its
    header take, so that a read of the header, of layer dimensions or of a
    record comes up short, [Import] returns an error, provided [Init]
    returns for the grid that the header declares.  The image returned with
    the error is the zero value when the header itself was short; otherwise
    it is the grid of the declared dimensions, with all its cells, into
    which the records read so far have been painted: each cell shows the
    record of the last layer that the stream holds in full for it, and the
    cleared default when there is none. *)
Theorem Import_data_short_read r :
  truncated (pending r) →
  ((16 ≤ length (pending r))%nat →
   is_Some (Init (declared_width (pending r)) (declared_height (pending r)))) →
  ∃ img e,
    Import_data r = Some (img, Some e)
    ∧ exact_count img
    ∧ ((length (pending r) < 16)%nat → img = zero_ImageData)
    ∧ ((16 ≤ length (pending r))%nat →
       Width img = declared_width (pending r)
       ∧ Height img = declared_height (pending r)
       ∧ Cells img =
           row_major (declared_width (pending r)) (declared_height (pending r))
             (painted (Z.to_nat (declared_layers (pending r)))
                (Z.to_nat (declared_width (pending r) * declared_height (pending r)))
                (drop 16 (pending r)))).
Proof.
  intros Htr Halloc.
  assert ((16 ≤ length (pending r))%nat →
          declared_width (pending r) * declared_height (pending r) < 2 ^ 63) as Hfits.
  { intros Hlen. destruct (Halloc Hlen) as [img0 Hinit].
    destruct (declared_range (pending r) Hlen) as (_ & Hw & Hh).
    by apply (Init_fits _ _ img0). }
  destruct (Import_data_outcome r Hfits)
    as (img & err & Hrun & _ & Herr & _ & Hzero & _).
  destruct err as [e|]; [| by destruct (Herr Htr)].
  exists img, e. split_and!; [done | by apply (Import_data_exact r img (Some e)) | done |].
  intros Hlen. destruct (Halloc Hlen) as [img0 Hinit].
  destruct (Import_data_painted r img0 Hlen Hinit) as [err' Hrun'].
  rewrite Hrun in Hrun'. by injection Hrun' as -> _.
Qed.

(** The stream cut inside its second record: the first cell is painted,
    the second is still cleared. *)
Lemma Import_data_short_read_witness :
  ∃ e,
    Import_data (mkReader stream_cut io_EOF) =
      Some (mkImageData 1 2 [cell_X; Clear zero_CellData], Some e).
Proof.
  destruct (Import_data_short_read (mkReader stream_cut io_EOF))
    as ([w0 h0 cells0] & e & Hrun & _ & _ & Hgrid).
  - unfold truncated. vm_compute. lia.
  - intros _. eexists. vm_compute. reflexivity.
  - destruct Hgrid as (Hw & Hh & Hcells); [vm_compute; lia|].
    cbn [Width Height Cells] in Hw, Hh, Hcells.
    exists e. rewrite Hrun, Hw, Hh, Hcells. vm_compute. reflexivity.
Defined.

(** C4 as stated fails: for a one by two grid whose stream ends inside the
    second record, [Import] returns, with the error, the grid in which the
    first cell is decoded and the second is still the cleared default. *)
Lemma Import_data_returns_partial_image :
  truncated stream_cut
  ∧ Import_data (mkReader stream_cut io_EOF) =
      Some (mkImageData 1 2 [cell_X; Clear zero_CellData],
            Some io_ErrUnexpectedEOF)
  ∧ mkImageData 1 2 [cell_X; Clear zero_CellData] ≠ zero_ImageData.
Proof.
  split_and!.
  - unfold truncated. vm_compute. lia.
  - vm_compute. reflexivity.
  - discriminate.
Qed.

(** ** Column-major order *)

Lemma stored_at_row_major w h cs :
  is_uint32 w → is_uint32 h → w * h < 2 ^ 63 →
  Z.of_nat (length cs) = w * h →
  stored_at (mkImageData w h (row_major w h cs)) cs.
Proof.
  intros Hw Hh Hwh Hlen k Hk. fields in Hk. fields. unfold is_uint32 in *.
  destruct (stored_coord w h k) as (Hw' & Hh' & Hx & Hy); [lia | lia | done |].
  destruct (lookup_lt_is_Some_2 cs (Z.to_nat k)) as [c Hc]; [lia|].
  exists c. split; [done|].
  destruct (GetCell_in_bounds (mkImageData w h (row_major w h cs))
              (k `div` h) (k `mod` h)) as (c' & Hc' & ->); fields.
  - rewrite length_row_major. lia.
  - done.
  - done.
  - done.
  - fields in Hc'. rewrite lookup_row_major in Hc' by nia.
    assert (stored_index w h (k `div` h + k `mod` h * w) = k) as Hidx.
    { apply (stored_slot w h k); [lia | lia | done | nia | done]. }
    rewrite Hidx, Hc in Hc'. simpl in Hc'. by injection Hc' as ->.
Qed.

Lemma stored_at_column_major img :
  is_uint32 (Width img) → is_uint32 (Height img) → invariant img →
  stored_at img (column_major img).
Proof.
  intros Hw Hh Hinv k Hk.
  destruct (invariant_exact img Hw Hh Hinv) as [Hlen Hwh].
  unfold is_uint32 in *.
  destruct (stored_coord (Width img) (Height img) k)
    as (Hw' & Hh' & Hx & Hy); [lia | lia | done |].
  destruct (GetCell_in_bounds img (k `div` Height img) (k `mod` Height img))
    as (c & Hc & Hget); [done.. |].
  exists c. split; [|done].
  unfold column_major. rewrite list_lookup_fmap, lookup_seqZ_lt by lia.
  simpl. rewrite Z2Nat.id, Z.add_0_l by lia. unfold stored_cell. by rewrite Hc.
Qed.

(** C2.  The loop of [Import] over the records of a layer of width [w] and
    height [h] puts the [k]-th record at the coordinate ([k / h], [k % h]),
    whatever the grid held before, and so does the decoding of a whole
    single-layer stream; and the [k]-th record that [Export] emits after
    the header is the cell at ([k / Height], [k % Height]), the order of a
    loop over [x] around a loop over [y].  In particular the two by three
    stream with the glyphs 100 to 105 decodes glyph [100 + k] to
    ([k / 3], [k % 3]). *)
Theorem column_major_order :
  (∀ w h cs cells rest fin err,
     is_uint32 w → is_uint32 h → w * h < 2 ^ 63 → wf_layer w h cs →
     Z.of_nat (length cells) = w * h →
     ∃ s,
       for_range (int_mul w h) Import_cell
         (mkImportState (mkReader (records cs ++ rest) fin)
            (mkImageData w h cells) err) = Some (Next s)
       ∧ pending (st_data s) = rest
       ∧ Width (st_image s) = w ∧ Height (st_image s) = h
       ∧ stored_at (st_image s) cs)
  ∧ (∀ version w h cs rest fin,
       is_uint32 w → is_uint32 h → w * h < 2 ^ 63 → wf_layer w h cs →
       ∃ img,
         Import_data (mkReader (xp_stream version w h cs [] ++ rest) fin)
           = Some (img, None)
         ∧ Width img = w ∧ Height img = h
         ∧ stored_at img cs)
  ∧ (∀ img,
       is_uint32 (Width img) → is_uint32 (Height img) → invariant img →
       ∃ cs,
         Export_buffer img =
           Some (xp_header (-1) 1 (Width img) (Height img) ++ records cs)
         ∧ Z.of_nat (length cs) = Width img * Height img
         ∧ stored_at img cs)
  ∧ (∃ img,
       Import_data (mkReader stream_2x3 io_EOF) = Some (img, None)
       ∧ ∀ k, 0 ≤ k < 6 →
           GetCell img (k `div` 3) (k `mod` 3) = Some (glyph_cell (100 + k), None)).
Proof.
  split_and!.
  - intros w h cs cells rest fin err Hw Hh Hwh Hcs Hcells.
    rewrite (layer_records_ok w h Hw Hh Hwh) by done.
    eexists. split; [done|]. fields.
    split_and!; [done.. |]. destruct Hcs as [Hlen _]. by apply stored_at_row_major.
  - intros version w h cs rest fin Hw Hh Hwh Hcs.
    exists (mkImageData w h (row_major w h cs)).
    rewrite (Import_data_stream w h Hw Hh Hwh) by (done || (simpl; lia)).
    split_and!; [done.. |].
    destruct Hcs as [Hlen _]. by apply stored_at_row_major.
  - intros img Hw Hh Hinv.
    destruct (invariant_exact img Hw Hh Hinv) as [Hlen Hwh].
    exists (column_major img). split_and!.
    + rewrite Export_buffer_ok by (done || (unfold is_uint32 in *; lia)).
      by rewrite !to_uint32_small.
    + unfold column_major. rewrite length_fmap, length_seqZ.
      unfold is_uint32 in *. nia.
    + by apply stored_at_column_major.
  - eexists. split; [vm_compute; reflexivity|].
    intros k Hk.
    assert (k = 0 ∨ k = 1 ∨ k = 2 ∨ k = 3 ∨ k = 4 ∨ k = 5) as Hcase by lia.
    destruct Hcase as [-> | [-> | [-> | [-> | [-> | ->]]]]]; reflexivity.
Qed.

(** A one by two layer, decoded and encoded. *)
Lemma column_major_order_witness :
  (∃ img,
     Import_data (mkReader (xp_stream (-1) 1 2 [glyph_cell 7; glyph_cell 8] [] ++ [])
                    io_EOF) = Some (img, None)
     ∧ stored_at img [glyph_cell 7; glyph_cell 8])
  ∧ (∃ cs,
       Export_buffer (mkImageData 1 2 [glyph_cell 7; glyph_cell 8]) =
         Some (xp_header (-1) 1 1 2 ++ records cs)
       ∧ stored_at (mkImageData 1 2 [glyph_cell 7; glyph_cell 8]) cs).
Proof.
  destruct column_major_order as (_ & Hdecode & Hencode & _).
  split.
  - destruct (Hdecode (-1) 1 2 [glyph_cell 7; glyph_cell 8] [] io_EOF)
      as (img & Hrun & _ & _ & Hat).
    + unfold is_uint32. lia.
    + unfold is_uint32. lia.
    + lia.
    + split; [reflexivity|].
      repeat constructor; unfold is_uint32, is_uint8; simpl; lia.
    + by exists img.
  - destruct (Hencode (mkImageData 1 2 [glyph_cell 7; glyph_cell 8]))
      as (cs & Hbuf & _ & Hat).
    + unfold is_uint32. simpl. lia.
    + unfold is_uint32. simpl. lia.
    + reflexivity.
    + by exists cs.
Defined.

(** ** Layers *)

Lemma wf_top_layer w h first more :
  wf_layer w h first → Forall (λ l, wf_layer w h l.2) more →
  wf_layer w h (top_layer first more).
Proof.
  intros Hfirst Hmore. unfold top_layer.
  destruct (last more) as [l|] eqn:Hlast; simpl; [|done].
  rewrite Forall_forall in Hmore. apply Hmore.
  rewrite last_lookup in Hlast. by apply list_elem_of_lookup_2 in Hlast.
Qed.

(** C3.  The layers of a stream are read in the order in which they are
    stored, and every record of a later layer replaces the cell an earlier
    layer left at its coordinate, whatever its background: decoding any
    number of layers, each with one record per cell, gives the grid of the
    last layer, which is also what decoding that layer alone gives.  The
    dimension words of the later layers are read and not looked at. *)
Theorem layers_paint_over version w h first more rest fin :
  is_uint32 w → is_uint32 h → w * h < 2 ^ 63 →
  wf_layer w h first → Forall (λ l, wf_layer w h l.2) more →
  1 + Z.of_nat (length more) < 2 ^ 32 →
  Import_data (mkReader (xp_stream version w h first more ++ rest) fin) =
    Some (mkImageData w h (row_major w h (top_layer first more)), None)
  ∧ Import_data (mkReader (xp_stream version w h first more ++ rest) fin) =
    Import_data (mkReader (xp_stream version w h (top_layer first more) [] ++ rest) fin).
Proof.
  intros Hw Hh Hwh Hfirst Hmore Hcount.
  rewrite (Import_data_stream w h Hw Hh Hwh) by done.
  split; [done|].
  rewrite (Import_data_stream w h Hw Hh Hwh);
    [done | by apply wf_top_layer | done | simpl; lia].
Qed.

(** Two layers of one cell: the undrawn cell on top replaces the drawn
    one. *)
Lemma layers_paint_over_witness :
  Import_data (mkReader stream_two_layers io_EOF) =
    Some (mkImageData 1 1 [Clear zero_CellData], None)
  ∧ Undrawn (Clear zero_CellData) = true.
Proof.
  split; [|reflexivity].
  pose proof (layers_paint_over (-1) 1 1 [cell_X] [(1, 1, [Clear zero_CellData])]
                [] io_EOF) as Hpaint.
  rewrite app_nil_r in Hpaint.
  apply Hpaint.
  - unfold is_uint32. lia.
  - unfold is_uint32. lia.
  - lia.
  - split; [reflexivity|].
    repeat constructor; unfold is_uint32, is_uint8; simpl; lia.
  - repeat constructor; unfold is_uint32, is_uint8; simpl; lia.
  - simpl. lia.
Defined.

(** ** Round trip *)

(** C1, as amended.  For an image whose width and height fit the 32-bit
    fields of the format, with [len(Cells) == Width*Height] and cells within
    the range of their types, [Export] followed by [Import] of the file it
    wrote gives the image back: same width, same height, same cells.  The
    gzip reader is assumed to undo the gzip writer, and the file to be
    creatable. *)
Theorem Export_Import_roundtrip
    (gzip_Writer : list byte → list byte)
    (gzip_NewReader : list byte → Reader + error) img path fs :
  (∀ bs, gzip_NewReader (gzip_Writer bs) = inl (mkReader bs io_EOF)) →
  is_uint32 (Width img) → is_uint32 (Height img) → invariant img →
  Forall wf_CellData (Cells img) →
  xp_path path ∉ denied fs →
  ∃ fs',
    Export gzip_Writer img path fs = Some (fs', None)
    ∧ Import gzip_NewReader (xp_path path) fs' = Some (img, None).
Proof.
  intros Hgzip Hw Hh Hinv Hwf Hpath.
  destruct (Import_data_Export_buffer img io_EOF Hw Hh Hinv Hwf) as (buf & Hbuf & Hdec).
  eexists. split.
  - by apply Export_creates.
  - rewrite (Import_opens gzip_NewReader _ _ (gzip_Writer buf) (mkReader buf io_EOF));
      [done | apply xp_path_suffix | | apply Hgzip].
    cbn [files]. apply lookup_insert_eq.
Qed.

(** The README's image, through the stand-in for gzip and an empty file
    system. *)
Lemma Export_Import_roundtrip_witness :
  ∃ fs',
    Export stored_Writer image_X "x" empty_fs = Some (fs', None)
    ∧ Import stored_NewReader "x.xp" fs' = Some (image_X, None).
Proof.
  apply (Export_Import_roundtrip stored_Writer stored_NewReader image_X "x" empty_fs).
  - intros bs. reflexivity.
  - unfold is_uint32. simpl. lia.
  - unfold is_uint32. simpl. lia.
  - reflexivity.
  - repeat constructor; unfold is_uint32, is_uint8; simpl; lia.
  - apply not_elem_of_empty.
Defined.

(** C1 as stated fails: an image 2^32 cells wide and none high, which has
    no cells, is written with a width field of zero and comes back as the
    zero by zero image. *)
Lemma Export_Import_wide :
  0 ≤ Width image_wide ∧ 0 ≤ Height image_wide
  ∧ Z.of_nat (length (Cells image_wide)) = Width image_wide * Height image_wide
  ∧ ∃ fs',
      Export stored_Writer image_wide "wide.xp" empty_fs = Some (fs', None)
      ∧ Import stored_NewReader "wide.xp" fs' = Some (mkImageData 0 0 [], None)
      ∧ mkImageData 0 0 [] ≠ image_wide.
Proof.
  split_and!; [done.. |].
  assert (Export_buffer image_wide = Some (xp_header (-1) 1 0 0)) as Hbuf.
  { rewrite Export_buffer_ok by (vm_compute; done). reflexivity. }
  eexists. split_and!.
  - apply (Export_creates stored_Writer image_wide "wide.xp" empty_fs _
             (not_elem_of_empty _) Hbuf).
  - vm_compute. reflexivity.
  - discriminate.
Qed.

(** ** The README's image *)

(** C8.  For the one by one image holding a white on black 'X', the buffer
    [Export] hands to the gzip writer is, byte for byte: version -1, layer
    count 1, width 1, height 1, each on four bytes, the low byte first;
    then the ten bytes of the record, glyph 88 on four bytes and the six
    channels 255, 255, 255, 0, 0, 0.  These are the bytes written, through
    the gzip writer, to the file. *)
Theorem Export_image_X :
  Export_buffer image_X =
    Some (byte_of_Z <$>
            [255; 255; 255; 255;  1; 0; 0; 0;  1; 0; 0; 0;  1; 0; 0; 0;
             88; 0; 0; 0;  255; 255; 255;  0; 0; 0])
  ∧ ∀ (gzip_Writer : list byte → list byte) path fs,
      Export gzip_Writer image_X path fs =
        match os_Create fs (xp_path path) with
        | inr e => Some (fs, Some e)
        | inl fs1 =>
            Some (file_Write fs1 (xp_path path)
                    (gzip_Writer
                       (byte_of_Z <$>
                          [255; 255; 255; 255;  1; 0; 0; 0;  1; 0; 0; 0;  1; 0; 0; 0;
                           88; 0; 0; 0;  255; 255; 255;  0; 0; 0])),
                  None)
        end.
Proof.
  assert (Export_buffer image_X =
          Some (byte_of_Z <$>
                  [255; 255; 255; 255;  1; 0; 0; 0;  1; 0; 0; 0;  1; 0; 0; 0;
                   88; 0; 0; 0;  255; 255; 255;  0; 0; 0])) as Hbuf
    by (vm_compute; reflexivity).
  split; [exact Hbuf|].
  intros gzip_Writer path fs. rewrite Export_unfold, Hbuf.
  by destruct (os_Create fs (xp_path path)).
Qed.

(** ** The [.xp] suffix *)

(** C10.  For a path that does not end in ".xp", [Import] returns its
    "File is not an XP image." error whatever the file system holds, and
    [Export] does what it does for the path with ".xp" appended: it creates
    that file and writes the image to it. *)
Theorem xp_suffix path :
  (¬ ∃ stem, path = stem +:+ ".xp") →
  (∀ gzip_NewReader fs,
     Import gzip_NewReader path fs =
       Some (zero_ImageData, Some (errors_New "File is not an XP image.")))
  ∧ (∀ gzip_Writer img fs,
       Export gzip_Writer img path fs = Export gzip_Writer img (path +:+ ".xp") fs
       ∧ Export gzip_Writer img path fs =
           match os_Create fs (path +:+ ".xp") with
           | inr e => Some (fs, Some e)
           | inl fs1 =>
               buf ← Export_buffer img;
               Some (file_Write fs1 (path +:+ ".xp") (gzip_Writer buf), None)
           end).
Proof.
  intros Hpath.
  assert (HasSuffix path ".xp" = false) as Hs.
  { destruct (HasSuffix path ".xp") eqn:Hs; [|done].
    destruct Hpath. by apply HasSuffix_inv. }
  split.
  - intros gzip_NewReader fs. by apply Import_rejects.
  - intros gzip_Writer img fs.
    rewrite !Export_unfold. unfold xp_path.
    by rewrite Hs, HasSuffix_app.
Qed.

(** The suffix test is case-sensitive: "ART.XP" does not end in ".xp". *)
Lemma xp_suffix_witness :
  Import stored_NewReader "ART.XP" empty_fs =
    Some (zero_ImageData, Some (errors_New "File is not an XP image."))
  ∧ Export stored_Writer image_X "ART.XP" empty_fs =
      Export stored_Writer image_X "ART.XP.xp" empty_fs.
Proof.
  destruct (xp_suffix "ART.XP") as [Himport Hexport].
  - intros [stem Hstem].
    assert (HasSuffix "ART.XP" ".xp" = true) as Hs
      by (rewrite Hstem; apply HasSuffix_app).
    vm_compute in Hs. discriminate.
  - split; [apply Himport | apply Hexport].
Defined.

(** * Further properties of the code *)

(** ** Packed colours *)

Lemma lor_disjoint hi lo n :
  0 ≤ n → 0 ≤ lo < 2 ^ n → hi `mod` 2 ^ n = 0 → Z.lor hi lo = hi + lo.
Proof.
  intros Hn Hlo Hhi. symmetry. apply Z.add_nocarry_lor.
  apply Z.bits_inj'. intros i Hi. rewrite Z.land_spec, Z.bits_0.
  destruct (decide (i < n)) as [Hlt | Hge].
  - assert (Z.testbit hi i = false) as ->; [|done].
    rewrite <- (Z.mod_pow2_bits_low hi n i) by lia. by rewrite Hhi, Z.bits_0.
  - assert (Z.testbit lo i = false) as ->; [|apply andb_false_r].
    rewrite <- (Z.mod_small lo (2 ^ n)) by lia.
    apply Z.mod_pow2_bits_high. lia.
Qed.

Lemma ARGB_pack r g b :
  is_uint8 r → is_uint8 g → is_uint8 b →
  Z.lor (Z.lor (Z.lor (to_uint32 (Z.shiftl 0xFF 24)) (uint32_shl (to_uint32 r) 16))
           (uint32_shl (to_uint32 g) 8)) (to_uint32 b)
  = 255 * 2 ^ 24 + r * 2 ^ 16 + g * 2 ^ 8 + b.
Proof.
  unfold is_uint8, uint32_shl, to_uint32. intros Hr Hg Hb.
  rewrite !Z.shiftl_mul_pow2 by lia.
  rewrite (Z.mod_small r), (Z.mod_small g), (Z.mod_small b) by lia.
  rewrite !Z.mod_small by lia.
  rewrite (lor_disjoint _ (r * 2 ^ 16) 24) by (done || lia).
  rewrite (lor_disjoint _ (g * 2 ^ 8) 16); [| lia | lia |].
  - rewrite (lor_disjoint _ b 8); [lia | lia | lia |].
    replace (255 * 2 ^ 24 + r * 2 ^ 16 + g * 2 ^ 8)
      with ((255 * 2 ^ 16 + r * 2 ^ 8 + g) * 2 ^ 8) by lia.
    apply Z.mod_mul. lia.
  - replace (255 * 2 ^ 24 + r * 2 ^ 16)
      with ((255 * 2 ^ 8 + r) * 2 ^ 16) by lia.
    apply Z.mod_mul. lia.
Qed.

Lemma RGBA_pack r g b :
  is_uint8 r → is_uint8 g → is_uint8 b →
  Z.lor (Z.lor (Z.lor (uint32_shl (to_uint32 r) 24) (uint32_shl (to_uint32 g) 16))
           (uint32_shl (to_uint32 b) 8)) 0xFF
  = r * 2 ^ 24 + g * 2 ^ 16 + b * 2 ^ 8 + 255.
Proof.
  unfold is_uint8, uint32_shl, to_uint32. intros Hr Hg Hb.
  rewrite !Z.shiftl_mul_pow2 by lia.
  rewrite (Z.mod_small r), (Z.mod_small g), (Z.mod_small b) by lia.
  rewrite !Z.mod_small by lia.
  rewrite (lor_disjoint _ (g * 2 ^ 16) 24); [| lia | lia | apply Z.mod_mul; lia].
  rewrite (lor_disjoint _ (b * 2 ^ 8) 16); [| lia | lia |].
  - rewrite (lor_disjoint _ 255 8); [lia | lia | lia |].
    replace (r * 2 ^ 24 + g * 2 ^ 16 + b * 2 ^ 8)
      with ((r * 2 ^ 16 + g * 2 ^ 8 + b) * 2 ^ 8) by lia.
    apply Z.mod_mul. lia.
  - replace (r * 2 ^ 24 + g * 2 ^ 16) with ((r * 2 ^ 8 + g) * 2 ^ 16) by lia.
    apply Z.mod_mul. lia.
Qed.

Lemma channel_bytes b3 b2 b1 b0 :
  is_uint8 b3 → is_uint8 b2 → is_uint8 b1 → is_uint8 b0 →
  let v := b3 * 2 ^ 24 + b2 * 2 ^ 16 + b1 * 2 ^ 8 + b0 in
  channel v 3 = b3 ∧ channel v 2 = b2 ∧ channel v 1 = b1 ∧ channel v 0 = b0.
Proof.
  unfold is_uint8, channel. intros H3 H2 H1 H0. cbv zeta.
  change (2 ^ (8 * 3)) with 16777216. change (2 ^ (8 * 2)) with 65536.
  change (2 ^ (8 * 1)) with 256. change (2 ^ (8 * 0)) with 1.
  change (2 ^ 24) with 16777216. change (2 ^ 16) with 65536.
  change (2 ^ 8) with 256 in *.
  split_and!; Z.div_mod_to_equations; lia.
Qed.

Lemma channel_sum v :
  channel v 2 * 2 ^ 16 + channel v 1 * 2 ^ 8 + channel v 0 = v `mod` 2 ^ 24
  ∧ channel v 3 * 2 ^ 24 + channel v 2 * 2 ^ 16 + channel v 1 * 2 ^ 8
    = to_uint32 v - v `mod` 2 ^ 8.
Proof.
  unfold channel, to_uint32.
  change (2 ^ (8 * 3)) with 16777216. change (2 ^ (8 * 2)) with 65536.
  change (2 ^ (8 * 1)) with 256. change (2 ^ (8 * 0)) with 1.
  change (2 ^ 24) with 16777216. change (2 ^ 16) with 65536.
  change (2 ^ 8) with 256. change (2 ^ 32) with 4294967296.
  split; Z.div_mod_to_equations; lia.
Qed.

Lemma channel_range v k : is_uint8 (channel v k).
Proof. unfold channel, is_uint8. apply Z.mod_pos_bound. lia. Qed.

Lemma ARGB_bytes g rf gf bf rb gb bb :
  is_uint8 rf → is_uint8 gf → is_uint8 bf →
  is_uint8 rb → is_uint8 gb → is_uint8 bb →
  ARGB (mkCellData g rf gf bf rb gb bb) =
    (255 * 2 ^ 24 + rf * 2 ^ 16 + gf * 2 ^ 8 + bf,
     255 * 2 ^ 24 + rb * 2 ^ 16 + gb * 2 ^ 8 + bb).
Proof. intros. unfold ARGB. cbn [R_f G_f B_f R_b G_b B_b]. by rewrite !ARGB_pack. Qed.

Lemma RGBA_bytes g rf gf bf rb gb bb :
  is_uint8 rf → is_uint8 gf → is_uint8 bf →
  is_uint8 rb → is_uint8 gb → is_uint8 bb →
  RGBA (mkCellData g rf gf bf rb gb bb) =
    (rf * 2 ^ 24 + gf * 2 ^ 16 + bf * 2 ^ 8 + 255,
     rb * 2 ^ 24 + gb * 2 ^ 16 + bb * 2 ^ 8 + 255).
Proof. intros. unfold RGBA. cbn [R_f G_f B_f R_b G_b B_b]. by rewrite !RGBA_pack. Qed.

Lemma ARGB_value cd :
  wf_CellData cd →
  ARGB cd = (255 * 2 ^ 24 + R_f cd * 2 ^ 16 + G_f cd * 2 ^ 8 + B_f cd,
             255 * 2 ^ 24 + R_b cd * 2 ^ 16 + G_b cd * 2 ^ 8 + B_b cd).
Proof. intros (_ & ? & ? & ? & ? & ? & ?). destruct cd. by apply ARGB_bytes. Qed.

Lemma RGBA_value cd :
  wf_CellData cd →
  RGBA cd = (R_f cd * 2 ^ 24 + G_f cd * 2 ^ 16 + B_f cd * 2 ^ 8 + 255,
             R_b cd * 2 ^ 24 + G_b cd * 2 ^ 16 + B_b cd * 2 ^ 8 + 255).
Proof. intros (_ & ? & ? & ? & ? & ? & ?). destruct cd. by apply RGBA_bytes. Qed.

(** X1.  For a cell whose channels are bytes, [ARGB] returns the two
    colours packed as alpha, red, green, blue from the top byte down, and
    [RGBA] as red, green, blue, alpha; the alpha byte is 255 in all four
    results, which fit 32 bits. *)
Theorem colours_packed cd :
  wf_CellData cd →
  ARGB cd = (255 * 2 ^ 24 + R_f cd * 2 ^ 16 + G_f cd * 2 ^ 8 + B_f cd,
             255 * 2 ^ 24 + R_b cd * 2 ^ 16 + G_b cd * 2 ^ 8 + B_b cd)
  ∧ RGBA cd = (R_f cd * 2 ^ 24 + G_f cd * 2 ^ 16 + B_f cd * 2 ^ 8 + 255,
               R_b cd * 2 ^ 24 + G_b cd * 2 ^ 16 + B_b cd * 2 ^ 8 + 255)
  ∧ channel (ARGB cd).1 3 = 255 ∧ channel (ARGB cd).2 3 = 255
  ∧ channel (RGBA cd).1 0 = 255 ∧ channel (RGBA cd).2 0 = 255
  ∧ is_uint32 (ARGB cd).1 ∧ is_uint32 (ARGB cd).2
  ∧ is_uint32 (RGBA cd).1 ∧ is_uint32 (RGBA cd).2.
Proof.
  intros Hwf. rewrite ARGB_value, RGBA_value by done.
  destruct Hwf as (_ & Hrf & Hgf & Hbf & Hrb & Hgb & Hbb).
  assert (is_uint8 255) as H255 by (unfold is_uint8; lia).
  destruct (channel_bytes 255 (R_f cd) (G_f cd) (B_f cd)) as (? & _); [done.. |].
  destruct (channel_bytes 255 (R_b cd) (G_b cd) (B_b cd)) as (? & _); [done.. |].
  destruct (channel_bytes (R_f cd) (G_f cd) (B_f cd) 255) as (_ & _ & _ & ?); [done.. |].
  destruct (channel_bytes (R_b cd) (G_b cd) (B_b cd) 255) as (_ & _ & _ & ?); [done.. |].
  unfold is_uint8, is_uint32 in *. cbn [fst snd].
  split_and!; try done; lia.
Qed.

(** The README's cell: white on black. *)
Lemma colours_packed_witness :
  ARGB cell_X = (0xFFFFFFFF, 0xFF000000) ∧ RGBA cell_X = (0xFFFFFFFF, 0x000000FF).
Proof.
  destruct (colours_packed cell_X) as (Ha & Hr & _).
  - repeat split; simpl; lia.
  - rewrite Ha, Hr. split; reflexivity.
Defined.

(** X2.  Unpacking what was packed gives the colours back: setting the
    colours of any cell from the [ARGB] pair of a cell [cd], or by
    [SetColoursRGBA] from its [RGBA] pair, leaves the glyph alone and gives
    the six channels of [cd], even when the background of [cd] is the
    undrawn sentinel. *)
Theorem SetColours_of_packed c cd :
  wf_CellData cd →
  SetColoursARGB c (ARGB cd).1 (ARGB cd).2 =
    mkCellData (Glyph c) (R_f cd) (G_f cd) (B_f cd) (R_b cd) (G_b cd) (B_b cd)
  ∧ SetColoursRGBA c (RGBA cd).1 (RGBA cd).2 =
    mkCellData (Glyph c) (R_f cd) (G_f cd) (B_f cd) (R_b cd) (G_b cd) (B_b cd).
Proof.
  intros Hwf. rewrite ARGB_value, RGBA_value by done. cbn [fst snd].
  destruct Hwf as (_ & Hrf & Hgf & Hbf & Hrb & Hgb & Hbb).
  assert (is_uint8 255) as H255 by (unfold is_uint8; lia).
  rewrite SetColoursARGB_unpack, SetColoursRGBA_unpack.
  destruct (channel_bytes 255 (R_f cd) (G_f cd) (B_f cd)) as (_ & -> & -> & ->); [done.. |].
  destruct (channel_bytes 255 (R_b cd) (G_b cd) (B_b cd)) as (-> & -> & -> & ->); [done.. |].
  destruct (channel_bytes (R_f cd) (G_f cd) (B_f cd) 255) as (-> & -> & -> & _); [done.. |].
  destruct (channel_bytes (R_b cd) (G_b cd) (B_b cd) 255) as (-> & -> & -> & ->); [done.. |].
  by rewrite !decide_False by lia.
Qed.

(** A cleared cell, whose background is the undrawn sentinel. *)
Lemma SetColours_of_packed_witness :
  SetColoursARGB zero_CellData (ARGB (Clear cell_X)).1 (ARGB (Clear cell_X)).2
    = Clear cell_X.
Proof.
  destruct (SetColours_of_packed zero_CellData (Clear cell_X)) as [Ha _].
  - repeat split; simpl; lia.
  - exact Ha.
Defined.

(** X3.  Packing what was set normalises the alpha byte: when the alpha
    byte of [back] is not zero, [ARGB] after [SetColoursARGB] returns
    [fore] and [back] with their top byte replaced by 255, and [RGBA] after
    [SetColoursRGBA] returns them, as 32-bit values, with their low byte
    replaced by 255.  The alpha of the foreground plays no part, nor does
    the cell the colours are set on. *)
Theorem packed_of_SetColours cd fore back :
  (channel back 3 ≠ 0 →
   ARGB (SetColoursARGB cd fore back) =
     (255 * 2 ^ 24 + fore `mod` 2 ^ 24, 255 * 2 ^ 24 + back `mod` 2 ^ 24))
  ∧ (channel back 0 ≠ 0 →
     RGBA (SetColoursRGBA cd fore back) =
       (to_uint32 fore - fore `mod` 2 ^ 8 + 255,
        to_uint32 back - back `mod` 2 ^ 8 + 255)).
Proof.
  split; intros Halpha.
  - rewrite SetColoursARGB_unpack, decide_False by done.
    rewrite ARGB_bytes by apply channel_range.
    destruct (channel_sum fore) as [<- _]. destruct (channel_sum back) as [<- _].
    f_equal; lia.
  - rewrite SetColoursRGBA_unpack, decide_False by done.
    rewrite RGBA_bytes by apply channel_range.
    destruct (channel_sum fore) as [_ <-]. destruct (channel_sum back) as [_ <-].
    f_equal; lia.
Qed.

(** A foreground with alpha 0 and a background with alpha 0x7F. *)
Lemma packed_of_SetColours_witness :
  ARGB (SetColoursARGB zero_CellData 0x00AABBCC 0x7F112233) =
    (0xFFAABBCC, 0xFF112233).
Proof.
  destruct (packed_of_SetColours zero_CellData 0x00AABBCC 0x7F112233) as [Ha _].
  rewrite Ha; [reflexivity | vm_compute; discriminate].
Defined.

(** ** Cells of an image *)

Lemma out_of_bounds_false id x y :
  out_of_bounds id x y = false ↔ 0 ≤ x < Width id ∧ 0 ≤ y < Height id.
Proof.
  unfold out_of_bounds.
  destruct (Z.geb_spec x (Width id)), (Z.geb_spec y (Height id)),
    (Z.ltb_spec x 0), (Z.ltb_spec y 0); simpl; split; (done || lia).
Qed.

Lemma cell_slot id x y :
  Width id * Height id < 2 ^ 63 →
  0 ≤ x < Width id → 0 ≤ y < Height id →
  int_add x (int_mul y (Width id)) = x + y * Width id
  ∧ 0 ≤ x + y * Width id < Width id * Height id.
Proof.
  intros Hwh Hx Hy. unfold int_add, int_mul.
  rewrite (int_wrap_small (y * Width id)) by nia.
  rewrite int_wrap_small by nia. nia.
Qed.

(** X4.  A cell that [SetCell] has stored is the cell [GetCell] returns at
    the same coordinate, and [GetCell] returns at every other coordinate
    what it returned before the store. *)
Theorem GetCell_after_SetCell img x y cell img' :
  Width img * Height img < 2 ^ 63 →
  SetCell img x y cell = Some (img', None) →
  GetCell img' x y = Some (cell, None)
  ∧ ∀ x' y', (x', y') ≠ (x, y) → GetCell img' x' y' = GetCell img x' y'.
Proof.
  intros Hwh Hset. unfold SetCell in Hset.
  destruct (out_of_bounds img x y) eqn:Hin; [done|].
  apply out_of_bounds_false in Hin as [Hx Hy].
  destruct (cell_slot img x y Hwh Hx Hy) as [Hslot Hrange].
  rewrite Hslot in Hset. unfold slice_store in Hset.
  destruct (Z.leb_spec 0 (x + y * Width img)); [|lia].
  destruct (Z.ltb_spec (x + y * Width img) (Z.of_nat (length (Cells img))))
    as [Hlen|]; [|done].
  simpl in Hset. injection Hset as <-.
  split.
  - unfold GetCell. fields. rewrite length_insert.
    destruct (Z.eqb_spec (Z.of_nat (length (Cells img))) 0); [lia|].
    assert (out_of_bounds
              (mkImageData (Width img) (Height img)
                 (<[Z.to_nat (x + y * Width img) := cell]> (Cells img))) x y = false)
      as -> by (by apply out_of_bounds_false).
    rewrite Hslot. unfold slice_index.
    destruct (Z.ltb_spec (x + y * Width img) 0); [lia|].
    rewrite list_lookup_insert_eq by lia. done.
  - intros x' y' Hne. unfold GetCell. fields. rewrite length_insert.
    destruct (Z.eqb_spec (Z.of_nat (length (Cells img))) 0); [done|].
    change (out_of_bounds
              (mkImageData (Width img) (Height img)
                 (<[Z.to_nat (x + y * Width img) := cell]> (Cells img))) x' y')
      with (out_of_bounds img x' y').
    destruct (out_of_bounds img x' y') eqn:Hin'; [done|].
    apply out_of_bounds_false in Hin' as [Hx' Hy'].
    destruct (cell_slot img x' y' Hwh Hx' Hy') as [-> Hrange'].
    unfold slice_index.
    destruct (Z.ltb_spec (x' + y' * Width img) 0); [lia|].
    rewrite list_lookup_insert_ne; [done|].
    intros Heq. apply Hne.
    assert (x + y * Width img = x' + y' * Width img) as Hsame by lia.
    assert (y = y') by nia. assert (x = x') by nia. by subst.
Qed.

(** A store at (1, 0) of a two by one image. *)
Lemma GetCell_after_SetCell_witness :
  GetCell (mkImageData 2 1 [glyph_cell 1; glyph_cell 7]) 1 0
    = Some (glyph_cell 7, None)
  ∧ GetCell (mkImageData 2 1 [glyph_cell 1; glyph_cell 7]) 0 0
    = GetCell (mkImageData 2 1 [glyph_cell 1; glyph_cell 2]) 0 0.
Proof.
  destruct (GetCell_after_SetCell (mkImageData 2 1 [glyph_cell 1; glyph_cell 2])
              1 0 (glyph_cell 7) (mkImageData 2 1 [glyph_cell 1; glyph_cell 7]))
    as [Hsame Hother].
  - simpl. lia.
  - reflexivity.
  - split; [exact Hsame | apply Hother; discriminate].
Defined.

(** X5.  On an image that has exactly width times height cells neither
    [GetCell] nor [SetCell] panics.  Inside the bounds both succeed, on the
    cell at index [x + y * Width]: [GetCell] returns it and [SetCell]
    replaces it and nothing else.  Outside the bounds both return an error,
    [GetCell] with the zero cell and [SetCell] with the image unchanged. *)
Theorem cell_access_safe img x y cell :
  Z.of_nat (length (Cells img)) = Width img * Height img →
  Width img * Height img < 2 ^ 63 →
  (0 ≤ x < Width img ∧ 0 ≤ y < Height img →
   ∃ c, Cells img !! Z.to_nat (x + y * Width img) = Some c
        ∧ GetCell img x y = Some (c, None)
        ∧ SetCell img x y cell =
            Some (mkImageData (Width img) (Height img)
                    (<[Z.to_nat (x + y * Width img) := cell]> (Cells img)),
                  None))
  ∧ (¬ (0 ≤ x < Width img ∧ 0 ≤ y < Height img) →
     ∃ e e', GetCell img x y = Some (zero_CellData, Some e)
             ∧ SetCell img x y cell = Some (img, Some e')).
Proof.
  intros Hlen Hwh.
  destruct (cell_access_exact img x y cell Hlen Hwh) as [_ Hcases].
  split; intros Hin.
  - apply out_of_bounds_false in Hin. by rewrite Hin in Hcases.
  - destruct (out_of_bounds img x y) eqn:Hout.
    + destruct Hcases as [[e He] [e' He']]. by exists e, e'.
    + by apply out_of_bounds_false in Hout.
Qed.

(** The README's image, inside and outside its bounds. *)
Lemma cell_access_safe_witness :
  (∃ c, GetCell image_X 0 0 = Some (c, None))
  ∧ (∃ e, GetCell image_X 1 0 = Some (zero_CellData, Some e)).
Proof.
  destruct (cell_access_safe image_X 0 0 zero_CellData) as [Hin _];
    [reflexivity | simpl; lia |].
  destruct (cell_access_safe image_X 1 0 zero_CellData) as [_ Hout];
    [reflexivity | simpl; lia |].
  split.
  - destruct Hin as (c & _ & Hget & _); [simpl; lia|]. by exists c.
  - destruct Hout as (e & _ & Hget & _); [simpl; lia|]. by exists e.
Defined.

(** X6.  An image that [Init] returns, for a width and height whose
    product fits an [int], reads as cleared everywhere: at every coordinate
    inside the bounds [GetCell] returns, without error, the cell with glyph
    0, black foreground and the undrawn background. *)
Theorem Init_then_GetCell w h img x y :
  w * h < 2 ^ 63 → Init w h = Some img → 0 ≤ x < w → 0 ≤ y < h →
  GetCell img x y = Some (mkCellData 0 0 0 0 255 0 255, None).
Proof.
  intros Hwh Hinit Hx Hy. rewrite Init_ok in Hinit by nia. injection Hinit as <-.
  destruct (GetCell_in_bounds
              (mkImageData w h (replicate (Z.to_nat (w * h)) (Clear zero_CellData)))
              x y) as (c & Hc & ->); fields.
  - rewrite length_replicate. nia.
  - done.
  - done.
  - done.
  - fields in Hc. apply lookup_replicate in Hc as [-> _]. done.
Qed.

(** The last cell of a three by two image. *)
Lemma Init_then_GetCell_witness :
  GetCell (mkImageData 3 2 (replicate 6 (Clear zero_CellData))) 2 1 =
    Some (mkCellData 0 0 0 0 255 0 255, None).
Proof. apply (Init_then_GetCell 3 2 _ 2 1); [lia | reflexivity | lia | lia]. Defined.

(** ** More on the decoder *)

(** X7.  The decoder panics exactly where [Init] panics on the width and
    height of a complete header: every panic of [Import] past the opening
    of the file is the refusal of [make].  No store into the grid is out of
    range and no division is by zero, whatever the bytes of the stream. *)
Theorem Import_data_panics r :
  Import_data r = None ↔
    (16 ≤ length (pending r))%nat
    ∧ Init (declared_width (pending r)) (declared_height (pending r)) = None.
Proof.
  split.
  - intros Hnone.
    destruct (decide (length (pending r) < 16)%nat) as [Hshort | Hlong].
    { destruct (Import_data_no_header r Hshort) as [e He]. by rewrite He in Hnone. }
    split; [lia|].
    destruct (Init (declared_width (pending r)) (declared_height (pending r)))
      as [img0|] eqn:Hinit; [|done].
    destruct (Import_data_painted r img0 ltac:(lia) Hinit) as [err Hrun].
    by rewrite Hrun in Hnone.
  - intros [Hlen Hinit]. rewrite Import_data_header by done. by rewrite Hinit.
Qed.

(** X8.  A stream long enough for the layers its header declares, for a
    grid for which [Init] returns, always decodes without error, whatever
    its bytes are: the version, the glyphs, the colours and the dimension
    words of the later layers are not validated.  The image has the
    declared width and height and exactly that many cells. *)
Theorem Import_data_accepts r img0 :
  ¬ truncated (pending r) →
  Init (declared_width (pending r)) (declared_height (pending r)) = Some img0 →
  ∃ img,
    Import_data r = Some (img, None)
    ∧ Width img = declared_width (pending r)
    ∧ Height img = declared_height (pending r)
    ∧ Z.of_nat (length (Cells img)) = Width img * Height img.
Proof.
  intros Hlong Hinit.
  assert (16 ≤ length (pending r))%nat as Hlen.
  { unfold truncated, required_length in Hlong. lia. }
  destruct (declared_range (pending r) Hlen) as (_ & Hwr & Hhr).
  pose proof (Init_fits _ _ _ Hwr Hhr Hinit) as Halloc.
  destruct (Import_data_outcome r) as (img & err & Hrun & Hinv & _ & Hnil & _ & Hdims);
    [done|].
  destruct (Hdims Hlen) as [Hw Hh]. rewrite (Hnil Hlong) in Hrun.
  exists img. split_and!; [done.. |].
  apply invariant_exact_product; [|done].
  rewrite Hw, Hh. unfold is_uint32 in *. nia.
Qed.

(** The two by three stream. *)
Lemma Import_data_accepts_witness :
  ∃ img, Import_data (mkReader stream_2x3 io_EOF) = Some (img, None)
         ∧ Width img = 2 ∧ Height img = 3.
Proof.
  destruct (Import_data_accepts (mkReader stream_2x3 io_EOF)
              (mkImageData 2 3 (replicate 6 (Clear zero_CellData))))
    as (img & Hrun & Hw & Hh & _).
  - unfold truncated. vm_compute. lia.
  - vm_compute. reflexivity.
  - exists img. split_and!; [exact Hrun | exact Hw | exact Hh].
Defined.

(** X9.  A header that declares no layer gives what [Init] gives for the
    declared width and height, whenever [Init] returns: the grid of that
    size with every cell cleared, without error.  Nothing after the header
    is read. *)
Theorem Import_data_no_layers version w h rest fin img :
  is_uint32 w → is_uint32 h → Init w h = Some img →
  Import_data (mkReader (xp_header version 0 w h ++ rest) fin) = Some (img, None)
  ∧ Width img = w ∧ Height img = h
  ∧ Forall (λ c, c = Clear zero_CellData) (Cells img).
Proof.
  intros Hw Hh Hinit.
  destruct (Init_invariant w h img Hinit) as (_ & Hwidth & Hheight & Hcells).
  split_and!; [| done | done |].
  - pose proof (length_xp_header version 0 w h) as Hhdr.
    rewrite Import_data_header by (fields; rewrite length_app; lia). fields.
    destruct (declared_xp_header version 0 w h rest) as (-> & -> & ->).
    rewrite !to_uint32_small by (done || (unfold is_uint32; lia)).
    by rewrite Hinit.
  - eapply Forall_impl; [exact Hcells|]. by intros c [-> _].
Qed.

(** A header alone, for a two by one grid. *)
Lemma Import_data_no_layers_witness :
  Import_data (mkReader (xp_header (-1) 0 2 1 ++ []) io_EOF) =
    Some (mkImageData 2 1 [Clear zero_CellData; Clear zero_CellData], None).
Proof.
  apply (Import_data_no_layers (-1) 2 1 [] io_EOF
           (mkImageData 2 1 [Clear zero_CellData; Clear zero_CellData]));
    [unfold is_uint32; lia | unfold is_uint32; lia | reflexivity].
Defined.

(** X10.  The four version bytes are read and never looked at: two streams
    that differ in them only decode to the same result. *)
Theorem Import_data_ignores_version (v v' tail : list byte) fin :
  length v = 4%nat → length v' = 4%nat →
  Import_data (mkReader (v ++ tail) fin) = Import_data (mkReader (v' ++ tail) fin).
Proof.
  intros Hv Hv'. unfold Import_data.
  rewrite !binary_Read_int32_ok by (fields; rewrite length_app; lia).
  fields. by rewrite !drop_app_length' by done.
Qed.

(** The two by three stream under version 7. *)
Lemma Import_data_ignores_version_witness :
  Import_data (mkReader (PutUint32 (to_uint32 (-1)) ++ drop 4 stream_2x3) io_EOF) =
  Import_data (mkReader (PutUint32 7 ++ drop 4 stream_2x3) io_EOF).
Proof.
  apply Import_data_ignores_version; apply length_PutUint32.
Defined.

(** ** What the decoder keeps true of the grid *)

Lemma range_loop_invariant {S : Type} (P : S → Prop) (body : Z → S → option (ctl S)) :
  (∀ i s c, P s → body i s = Some c → P (ctl_state c)) →
  ∀ (n : nat) i s c, P s → range_loop n i body s = Some c → P (ctl_state c).
Proof.
  intros Hbody n. induction n as [|n IH]; intros i s c Hs Hrun; simpl in Hrun.
  - by injection Hrun as <-.
  - destruct (body i s) as [[s' | s'] |] eqn:Hstep; [| | done].
    + apply (IH (i + 1) s'); [|done]. apply (Hbody i s (Next s')); done.
    + injection Hrun as <-. apply (Hbody i s (Return s')); done.
Qed.

Lemma wf_decode_CellData bs : wf_CellData (decode_CellData bs).
Proof.
  unfold decode_CellData.
  destruct bs as [|g0 [|g1 [|g2 [|g3 [|rf [|gf [|bf [|rb [|gb [|bb bs]]]]]]]]]];
    try apply wf_zero_CellData.
  unfold wf_CellData. cbn [Glyph R_f G_f B_f R_b G_b B_b].
  split_and!; try apply byte_to_Z_range. by apply Uint32_range.
Qed.

Lemma wf_SetCell img x y cell img' err :
  SetCell img x y cell = Some (img', err) →
  Forall wf_CellData (Cells img) → wf_CellData cell →
  Forall wf_CellData (Cells img').
Proof.
  unfold SetCell, slice_store. intros Hset Hwf Hcell.
  destruct (out_of_bounds img x y).
  - by injection Hset as <- <-.
  - destruct (_ && _); [|done]. simpl in Hset. injection Hset as <- <-.
    fields. by apply Forall_insert.
Qed.

Lemma wf_Import_cell i s c :
  Forall wf_CellData (Cells (st_image s)) →
  Import_cell i s = Some c →
  Forall wf_CellData (Cells (st_image (ctl_state c))).
Proof.
  unfold Import_cell, binary_Read_CellData. intros Hwf Hstep.
  destruct (io_ReadFull (st_data s) 10) as [[bs | e] r'].
  - destruct (int_quot i (Height (st_image s))) as [x|]; [|done].
    destruct (int_rem i (Height (st_image s))) as [y|]; [|done].
    simpl in Hstep.
    destruct (SetCell (st_image s) x y (decode_CellData bs)) as [[img' e]|] eqn:Hset;
      [|done].
    simpl in Hstep. injection Hstep as <-. simpl.
    apply (wf_SetCell _ _ _ _ _ _ Hset Hwf). apply wf_decode_CellData.
  - by injection Hstep as <-.
Qed.

Lemma wf_Import_layer layer s c :
  Forall wf_CellData (Cells (st_image s)) →
  Import_layer layer s = Some c →
  Forall wf_CellData (Cells (st_image (ctl_state c))).
Proof.
  unfold Import_layer, for_range. intros Hwf Hstep.
  eapply (range_loop_invariant
            (λ s, Forall wf_CellData (Cells (st_image s))) Import_cell);
    [apply wf_Import_cell | | exact Hstep].
  destruct (layer =? 0); [done|].
  destruct (binary_Read_uint32 (st_data s) 0) as [[? ?] ?].
  by destruct (binary_Read_uint32 _ 0) as [[? ?] ?].
Qed.

Lemma wf_Import_data r img err :
  Import_data r = Some (img, err) → Forall wf_CellData (Cells img).
Proof.
  unfold Import_data. intros Hrun.
  destruct (binary_Read_int32 r 0) as [[version e0] r1].
  destruct (binary_Read_uint32 r1 0) as [[numLayers [e1|]] r2].
  { by injection Hrun as <- <-. }
  destruct (binary_Read_uint32 r2 0) as [[w e2] r3].
  destruct (binary_Read_uint32 r3 0) as [[h [e3|]] r4].
  { by injection Hrun as <- <-. }
  destruct (Init w h) as [image|] eqn:HInit; [|done]. simpl in Hrun.
  destruct (for_range numLayers Import_layer (mkImportState r4 image None))
    as [c|] eqn:Hloop; [|done].
  simpl in Hrun.
  assert (Forall wf_CellData (Cells (st_image (ctl_state c)))) as Hwf.
  { eapply (range_loop_invariant
              (λ s, Forall wf_CellData (Cells (st_image s))) Import_layer);
      [apply wf_Import_layer | | exact Hloop].
    fields. destruct (Init_invariant w h image HInit) as (_ & _ & _ & Hclear).
    eapply Forall_impl; [exact Hclear|]. intros c0 [-> _].
    unfold wf_CellData, is_uint32, is_uint8. simpl. lia. }
  destruct c; injection Hrun as <- <-; exact Hwf.
Qed.

Lemma Import_data_exportable r img :
  Import_data r = Some (img, None) →
  is_uint32 (Width img) ∧ is_uint32 (Height img) ∧ invariant img
  ∧ Forall wf_CellData (Cells img).
Proof.
  intros Hrun.
  destruct (decide ((16 ≤ length (pending r))%nat
                    ∧ 2 ^ 63 ≤ declared_width (pending r)
                               * declared_height (pending r)))
    as [[Hlen Hbig] | Hok].
  { rewrite Import_data_header in Hrun by done.
    destruct (declared_range (pending r) Hlen) as (_ & Hw & Hh).
    by rewrite Init_overflow in Hrun. }
  destruct (Import_data_outcome r) as (img' & err' & Hrun' & Hinv & Herr & _ & _ & Hdims);
    [lia|].
  rewrite Hrun in Hrun'. injection Hrun' as <- <-.
  assert (16 ≤ length (pending r))%nat as Hlen.
  { destruct (decide (truncated (pending r))) as [Htr | Hlong].
    - by destruct (Herr Htr).
    - unfold truncated, required_length in Hlong. lia. }
  destruct (Hdims Hlen) as [-> ->].
  destruct (declared_range (pending r) Hlen) as (_ & Hw & Hh).
  split_and!; [done.. |]. by apply (wf_Import_data r img None).
Qed.

(** X11.  An image that [Import] returned without error can be exported,
    and importing the file written gives the same image again: whatever
    the layers of the first file were, the second holds their composite.
    The gzip reader is assumed to undo the gzip writer, and the file to be
    creatable. *)
Theorem Import_Export_Import
    (gzip_Writer : list byte → list byte)
    (gzip_NewReader : list byte → Reader + error) path fs img path' fs0 :
  (∀ bs, gzip_NewReader (gzip_Writer bs) = inl (mkReader bs io_EOF)) →
  Import gzip_NewReader path fs = Some (img, None) →
  xp_path path' ∉ denied fs0 →
  ∃ fs1,
    Export gzip_Writer img path' fs0 = Some (fs1, None)
    ∧ Import gzip_NewReader (xp_path path') fs1 = Some (img, None).
Proof.
  intros Hgzip Himport Hpath.
  assert (∃ data, Import_data data = Some (img, None)) as [data Hdata].
  { unfold Import in Himport.
    destruct (negb (HasSuffix path ".xp")); [done|].
    destruct (os_Open fs path) as [f | e]; [|done].
    destruct (gzip_NewReader f) as [data | e]; [|done].
    by exists data. }
  destruct (Import_data_exportable data img Hdata) as (Hw & Hh & Hinv & Hwf).
  destruct (Import_data_Export_buffer img io_EOF Hw Hh Hinv Hwf)
    as (buf & Hbuf & Hdec).
  eexists. split.
  - by apply Export_creates.
  - rewrite (Import_opens gzip_NewReader _ _ (gzip_Writer buf) (mkReader buf io_EOF));
      [done | apply xp_path_suffix | | apply Hgzip].
    cbn [files]. apply lookup_insert_eq.
Qed.

(** The file of two layers, imported and exported as one. *)
Lemma Import_Export_Import_witness :
  ∃ fs1,
    Export stored_Writer (mkImageData 1 1 [Clear zero_CellData]) "flat" empty_fs
      = Some (fs1, None)
    ∧ Import stored_NewReader "flat.xp" fs1
      = Some (mkImageData 1 1 [Clear zero_CellData], None).
Proof.
  apply (Import_Export_Import stored_Writer stored_NewReader
           "two.xp" fs_two_layers _ "flat" empty_fs).
  - intros bs. reflexivity.
  - vm_compute. reflexivity.
  - apply not_elem_of_empty.
Defined.

(** ** More on the encoder *)

(** X12.  For an image with exactly width times height cells [Export]
    does not panic, and the buffer it compresses is sixteen bytes of header
    and ten bytes for every cell. *)
Theorem Export_buffer_length img :
  0 ≤ Width img → 0 ≤ Height img →
  Z.of_nat (length (Cells img)) = Width img * Height img →
  Width img * Height img < 2 ^ 63 →
  ∃ buf, Export_buffer img = Some buf
         ∧ Z.of_nat (length buf) = 16 + 10 * (Width img * Height img).
Proof.
  intros Hw Hh Hlen Hwh. eexists. split; [by apply Export_buffer_ok|].
  rewrite length_app, length_xp_header, length_records.
  unfold column_major. rewrite length_fmap, length_seqZ. nia.
Qed.

(** The README's image: twenty-six bytes. *)
Lemma Export_buffer_length_witness :
  ∃ buf, Export_buffer image_X = Some buf ∧ Z.of_nat (length buf) = 16 + 10 * (1 * 1).
Proof. apply (Export_buffer_length image_X); simpl; lia. Defined.

(** ** An image without cells *)

Lemma records_app cs1 cs2 : records (cs1 ++ cs2) = records cs1 ++ records cs2.
Proof. unfold records. apply bind_app. Qed.

Lemma GetCell_no_cells img x y :
  Cells img = [] →
  GetCell img x y = Some (zero_CellData, Some (errors_New "Image has no data.")).
Proof. intros Hnil. unfold GetCell. by rewrite Hnil. Qed.

Lemma Export_column_no_cells img x buf :
  Cells img = [] →
  Export_column img x buf =
    Some (Next (buf ++ records (replicate (Z.to_nat (Height img)) zero_CellData))).
Proof.
  intros Hnil. unfold Export_column, for_range.
  generalize (Z.to_nat (Height img)) as n. generalize 0 as y. intros y n.
  revert y buf. induction n as [|n IH]; intros y buf.
  - simpl. by rewrite app_nil_r.
  - cbn [range_loop]. rewrite GetCell_no_cells by done. cbn [mbind option_bind].
    rewrite IH. unfold binary_Write_CellData. by rewrite <- app_assoc.
Qed.

Lemma Export_rows_no_cells img (m : nat) x buf :
  Cells img = [] →
  range_loop m x (Export_column img) buf =
    Some (Next (buf ++ records (replicate (m * Z.to_nat (Height img)) zero_CellData))).
Proof.
  intros Hnil. revert x buf. induction m as [|m IH]; intros x buf.
  - simpl. by rewrite app_nil_r.
  - cbn [range_loop]. rewrite Export_column_no_cells by done.
    rewrite IH, <- app_assoc, <- records_app, <- replicate_add. done.
Qed.

(** X15.  [Export] drops the error of [GetCell]: for an image that holds
    no cells it still writes one record for every coordinate of the
    declared width and height, each the zero cell (glyph 0, black on
    black), which is not an undrawn cell. *)
Theorem Export_buffer_no_cells img :
  Cells img = [] →
  Export_buffer img =
    Some (xp_header (-1) 1 (to_uint32 (Width img)) (to_uint32 (Height img))
            ++ records (replicate (Z.to_nat (Width img) * Z.to_nat (Height img))
                          zero_CellData))
  ∧ Undrawn zero_CellData = false.
Proof.
  intros Hnil. split; [|done].
  unfold Export_buffer, for_range. rewrite Export_rows_no_cells by done.
  cbn [mbind option_bind].
  unfold binary_Write_int32, binary_Write_uint32, xp_header.
  rewrite app_nil_l. by repeat rewrite <- app_assoc.
Qed.

(** The image that declares one cell and holds none. *)
Lemma Export_buffer_no_cells_witness :
  Export_buffer image_hollow =
    Some (xp_header (-1) 1 1 1 ++ encode_CellData zero_CellData).
Proof.
  destruct (Export_buffer_no_cells image_hollow) as [Hbuf _]; [reflexivity|].
  rewrite Hbuf. vm_compute. reflexivity.
Defined.

(** ** Undrawn cells and packed colours *)

(** X16.  For a cell whose channels are bytes, [Undrawn] can be read off
    either packed background: the cell is undrawn exactly when [RGBA]
    gives 0xFF00FFFF for the background, and exactly when [ARGB] gives
    0xFFFF00FF. *)
Theorem Undrawn_packed cd :
  wf_CellData cd →
  (Undrawn cd = true ↔ (RGBA cd).2 = 0xFF00FFFF)
  ∧ (Undrawn cd = true ↔ (ARGB cd).2 = 0xFFFF00FF).
Proof.
  intros Hwf. rewrite ARGB_value, RGBA_value by done. cbn [snd].
  destruct Hwf as (_ & _ & _ & _ & Hr & Hg & Hb). unfold is_uint8 in *.
  unfold Undrawn. rewrite !andb_true_iff, !Z.eqb_eq.
  split; split; lia.
Qed.

(** A cleared cell. *)
Lemma Undrawn_packed_witness :
  Undrawn (Clear cell_X) = true ↔ (RGBA (Clear cell_X)).2 = 0xFF00FFFF.
Proof.
  apply (Undrawn_packed (Clear cell_X)). repeat split; simpl; lia.
Defined.

(** X17.  A cell whose colours were set by [SetColoursARGB] is undrawn
    exactly when the alpha byte of the background is zero or its red,
    green and blue bytes are 255, 0, 255; likewise for [SetColoursRGBA],
    with the alpha byte lowest. *)
Theorem Undrawn_after_SetColours cd fore back :
  (Undrawn (SetColoursARGB cd fore back) = true ↔
     channel back 3 = 0
     ∨ (channel back 2 = 255 ∧ channel back 1 = 0 ∧ channel back 0 = 255))
  ∧ (Undrawn (SetColoursRGBA cd fore back) = true ↔
       channel back 0 = 0
       ∨ (channel back 3 = 255 ∧ channel back 2 = 0 ∧ channel back 1 = 255)).
Proof.
  rewrite SetColoursARGB_unpack, SetColoursRGBA_unpack. unfold Undrawn.
  split; case_decide; cbn [R_b G_b B_b];
    rewrite ?andb_true_iff, ?Z.eqb_eq; split; try tauto; intros _; by left.
Qed.
